(** * Business-Product-Launch-Analyzer: the resilience and escalation layer

    A shallow embedding of the retry, backoff, bounded-execution and
    strategy-escalation code of [agents.py], [tasks.py], [config.py] and
    [crew.py], followed by the properties the specification states about it.

    Conventions of the embedding.
    - Python [int] is [Z]; loop counters produced by [range] are [nat].
    - Python [str] is [string] (a byte string: a non-ASCII character such as
      the cross mark is its UTF-8 bytes, and a prefix test on bytes agrees
      with a prefix test on code points).
    - The string methods ([lower], [strip], [split], [isalnum], ...) are
      Python's on ASCII text, which is what messages, names and typed lines
      are taken to be.
    - A Python [float] is an exact rational [Q]; [int(x)] truncates toward
      zero.  The draws of [random.uniform] are an explicit argument.
    - Wall-clock time is a [nat] of seconds; a unit of work is described by
      the instant at which it finishes (or never) and by what it produces. *)

From Stdlib Require Import ZArith QArith Qround List String Ascii Bool Lia.
From Stdlib Require Import DecimalString Sorted.
Import ListNotations.

Open Scope string_scope.

(** ** Python values, strings and exceptions *)

Module Py.

(** [str.lower()] on the ASCII range. *)
Definition lower_ascii (c : ascii) : ascii :=
  let n := nat_of_ascii c in
  if (65 <=? n)%nat && (n <=? 90)%nat then ascii_of_nat (n + 32) else c.

Fixpoint lower (s : string) : string :=
  match s with
  | EmptyString => EmptyString
  | String c t => String (lower_ascii c) (lower t)
  end.

(** [needle in hay] for strings. *)
Fixpoint contains (needle hay : string) : bool :=
  prefix needle hay ||
  match hay with
  | EmptyString => false
  | String _ t => contains needle t
  end.

(** [any(indicator in s for indicator in indicators)]. *)
Definition any_in (indicators : list string) (s : string) : bool :=
  existsb (fun indicator => contains indicator s) indicators.

(** [s.startswith(p)]. *)
Definition startswith (s p : string) : bool := prefix p s.

(** [str(n)] for a non-negative integer. *)
Definition str_of_nat (n : nat) : string :=
  NilEmpty.string_of_uint (Nat.to_uint n).

(** [str(z)] for an integer. *)
Definition str_of_Z (z : Z) : string :=
  match z with
  | Z0 => "0"
  | Zpos _ => str_of_nat (Z.to_nat z)
  | Zneg _ => "-" ++ str_of_nat (Z.to_nat (- z))
  end.

(** [int(x)] of a float: truncation toward zero. *)
Definition int (x : Q) : Z :=
  if Qle_bool 0 x then Qfloor x else Qceiling x.

(** [c.isspace()] on the ASCII range: the characters 9 to 13, the
    separators 28 to 31 and the space. *)
Definition isspace (c : ascii) : bool :=
  let n := nat_of_ascii c in
  ((9 <=? n)%nat && (n <=? 13)%nat) || ((28 <=? n)%nat && (n <=? 31)%nat)
  || (n =? 32)%nat.

(** [c.isalnum()] on the ASCII range: digits and letters. *)
Definition isalnum (c : ascii) : bool :=
  let n := nat_of_ascii c in
  ((48 <=? n)%nat && (n <=? 57)%nat) || ((65 <=? n)%nat && (n <=? 90)%nat)
  || ((97 <=? n)%nat && (n <=? 122)%nat).

(** The characters below 128, on which the functions above are Python's. *)
Definition is_ascii (c : ascii) : bool := (nat_of_ascii c <? 128)%nat.

Fixpoint all_chars (p : ascii -> bool) (s : string) : bool :=
  match s with
  | EmptyString => true
  | String c t => p c && all_chars p t
  end.

(** [s.lstrip()]. *)
Fixpoint lstrip (s : string) : string :=
  match s with
  | EmptyString => EmptyString
  | String c t => if isspace c then lstrip t else s
  end.

(** [s.rstrip()]. *)
Fixpoint rstrip (s : string) : string :=
  match s with
  | EmptyString => EmptyString
  | String c t =>
      match rstrip t with
      | EmptyString => if isspace c then EmptyString else String c EmptyString
      | String _ _ as t' => String c t'
      end
  end.

(** [s.strip()]. *)
Definition strip (s : string) : string := rstrip (lstrip s).

(** [s.split()], [word] being the word read so far. *)
Fixpoint split_words (s word : string) : list string :=
  match s with
  | EmptyString =>
      match word with
      | EmptyString => []
      | String _ _ => [word]
      end
  | String c t =>
      if isspace c then
        match word with
        | EmptyString => split_words t EmptyString
        | String _ _ => word :: split_words t EmptyString
        end
      else split_words t (word ++ String c EmptyString)
  end.

Definition split (s : string) : list string := split_words s EmptyString.

(** ["".join(c for c in s if keep(c))]. *)
Fixpoint join_if (keep : ascii -> bool) (s : string) : string :=
  match s with
  | EmptyString => EmptyString
  | String c t => if keep c then String c (join_if keep t) else join_if keep t
  end.

(** [s.replace(old, new)] for one-character [old] and [new]. *)
Fixpoint replace_char (old new : ascii) (s : string) : string :=
  match s with
  | EmptyString => EmptyString
  | String c t =>
      String (if Ascii.eqb c old then new else c) (replace_char old new t)
  end.

(** [s * n]. *)
Fixpoint times (s : string) (n : nat) : string :=
  match n with
  | O => EmptyString
  | S n' => s ++ times s n'
  end.

(** [s in choices] for a list of strings. *)
Definition isin (s : string) (choices : list string) : bool :=
  existsb (String.eqb s) choices.

(** The truth value of what [os.getenv] returns: [None] and the empty
    string are false. *)
Definition truthy (v : option string) : bool :=
  match v with
  | Some (String _ _) => true
  | _ => false
  end.

(** The values [create_crewai_setup] hands to [main]: a [str], or the
    object a crew's [kickoff] produces. *)
Inductive value : Type :=
| Str (s : string)
| Obj (repr : string).

(** Exceptions, by the class the [except] clauses of the program tell apart
    ([TimeoutError] is a subclass of [Exception]), with their message. *)
Inductive exc : Type :=
| TimeoutError (msg : string)
| Exception (msg : string).

(** [str(e)]. *)
Definition str_exc (e : exc) : string :=
  match e with
  | TimeoutError m => m
  | Exception m => m
  end.

(** [str(results)]. *)
Definition str_value (v : value) : string :=
  match v with
  | Str s => s
  | Obj repr => repr
  end.

(** What a call does: returns a value or raises. *)
Inductive outcome (A : Type) : Type :=
| Return (v : A)
| Raise (e : exc).
Arguments Return {A} v.
Arguments Raise {A} e.

End Py.

(** ** Bounded execution in time *)

Module Clock.

(** A unit of work run on a worker: [finishes = Some t] when it ends [t]
    seconds after it was started, [None] when it never ends; [produces] is
    what it returns or raises when it ends. *)
Record work (A : Type) : Type := mkWork {
  finishes : option nat;
  produces : Py.outcome A
}.
Arguments mkWork {A} finishes produces.
Arguments finishes {A} w.
Arguments produces {A} w.

(** [thread.is_alive()] / a future not done, [deadline] seconds after the
    start. *)
Definition alive_at {A} (w : work A) (deadline : nat) : bool :=
  match finishes w with
  | None => true
  | Some t => (deadline <? t)%nat
  end.

(** What the caller of a bounded call observes: [Some (t, o)] when control
    comes back [t] seconds after the call with outcome [o], [None] when the
    caller stays blocked for ever. *)
Definition observed (A : Type) : Type := option (nat * Py.outcome A).

End Clock.

(** ** agents.py *)

Module Agents.
Import Py.

(** [timeout_handler(func)]: [func] runs on a daemon thread, the caller
    [join]s it for [timeout] seconds; when the thread is still alive the
    caller raises [TimeoutError] and leaves the thread running, otherwise it
    re-raises the thread's exception or returns its result. *)
Definition timeout_handler {A} (timeout : nat) (func : Clock.work A)
  : Clock.observed A :=
  let joined_at :=
    match Clock.finishes func with
    | Some t => Nat.min t timeout
    | None => timeout
    end in
  if Clock.alive_at func timeout then
    Some (joined_at,
          Raise (TimeoutError
                   ("Operation timed out after " ++ str_of_nat timeout ++ " seconds")))
  else
    Some (joined_at, Clock.produces func).

(** The custom attributes [__init__] sets on a [RobustGeminiLLM]. *)
Record RobustGeminiLLM : Type := mkLLM {
  max_retries : nat;
  base_delay : Z;
  timeout : nat
}.

(** The one entry of [model_configs]. *)
Definition model_config : RobustGeminiLLM :=
  {| max_retries := 5; base_delay := 10; timeout := 180 |}.

(** [random.uniform(0.1, 0.3)] returns a number of this interval. *)
Definition uniform_01_03 (u : Q) : Prop := (1 # 10 <= u /\ u <= 3 # 10)%Q.

(** [_calculate_backoff_delay(attempt)], [u] being the draw of
    [random.uniform(0.1, 0.3)].  The sum and the product are those of
    exact rationals: the code computes them on floats, whose rounding can
    move the result by one (for a draw that is the double nearest to 0.3
    and a delay of 10 the code returns 13, this model 12) and whose range
    makes [int * float] fail for delays past that of a double.  What is
    proved of this function are bounds and values that the rounding does
    not change. *)
Definition _calculate_backoff_delay (self : RobustGeminiLLM) (attempt : nat) (u : Q) : Z :=
  let delay := (base_delay self * 2 ^ Z.of_nat attempt)%Z in
  let jitter := (u * inject_Z delay)%Q in
  int (inject_Z delay + jitter).

(** The value of [delay] in [_calculate_backoff_delay] before the jitter is
    added to it. *)
Definition unjittered (self : RobustGeminiLLM) (attempt : nat) : Z :=
  (base_delay self * 2 ^ Z.of_nat attempt)%Z.

Definition retryable_indicators : list string :=
  [ "503"; "overloaded"; "service unavailable"; "timeout";
    "quota"; "rate limit"; "429"; "too many requests";
    "resource exhausted"; "limit exceeded"; "rate_limit_exceeded";
    "temporarily unavailable"; "server error"; "internal error" ].

(** [_is_retryable_error(error)]. *)
Definition _is_retryable_error (error : exc) : bool :=
  let error_str := lower (str_exc error) in
  any_in retryable_indicators error_str.

(** What a run of the retry loop does, in order. *)
Inductive event : Type :=
| Invoked (attempt : nat)
| Slept (delay : Z).

(** [time.sleep(delay)] raises [ValueError] on a negative length. *)
Definition sleep_error : exc := Exception "sleep length must be non-negative".

Section RetryLoop.
Context {A : Type}.
(** The prefix of the final error message and the test of the "special
    handling for overloaded model", the two places where [_generate] and
    [invoke] differ. *)
Variable failed_after : string.
Variable overloaded : exc -> bool.
Variable self : RobustGeminiLLM.
(** The parent class's method: what its [i]-th call of this run does. *)
Variable super_call : nat -> outcome A.
(** The draw of [random.uniform] made while handling attempt [i]. *)
Variable rnd : nat -> Q.

(** The statements after the loop. *)
Definition all_retries_failed (last_error : option exc) : outcome A :=
  let shown := match last_error with
               | Some e => str_exc e
               | None => "None"
               end in
  Raise (Exception (failed_after ++ str_of_nat (max_retries self + 1)
                      ++ " attempts. Last error: " ++ shown)).

(** The delay slept after a retryable failure [e] of [attempt]. *)
Definition retry_delay (e : exc) (attempt : nat) : Z :=
  let delay := _calculate_backoff_delay self attempt (rnd attempt) in
  if overloaded e then Z.max delay 60 else delay.

(** [for attempt in range(self.max_retries + 1)], [remaining] iterations
    being left and [attempt] the next index. *)
Fixpoint retry_loop (remaining attempt : nat) (last_error : option exc)
  : outcome A * list event :=
  match remaining with
  | O => (all_retries_failed last_error, [])
  | S remaining' =>
      match super_call attempt with
      | Return result => (Return result, [Invoked attempt])
      | Raise e =>
          if _is_retryable_error e && (attempt <? max_retries self)%nat then
            let delay := retry_delay e attempt in
            if (delay <? 0)%Z then
              (Raise sleep_error, [Invoked attempt])
            else
              let '(o, evs) := retry_loop remaining' (S attempt) (Some e) in
              (o, Invoked attempt :: Slept delay :: evs)
          else
            (all_retries_failed (Some e), [Invoked attempt])
      end
  end.

Definition retrying_call : outcome A * list event :=
  retry_loop (max_retries self + 1) 0 None.
End RetryLoop.

(** The test of [_generate]: ["overloaded" in error_str or "503" in error_str]. *)
Definition overloaded_generate (e : exc) : bool :=
  let error_str := lower (str_exc e) in
  contains "overloaded" error_str || contains "503" error_str.

(** The test of [invoke]: ["overloaded" in str(e).lower() or "503" in str(e)]. *)
Definition overloaded_invoke (e : exc) : bool :=
  contains "overloaded" (lower (str_exc e)) || contains "503" (str_exc e).

(** The body of [_generate], as the worker thread runs it. *)
Definition _generate {A} := @retrying_call A "Failed after " overloaded_generate.

(** The body of [invoke], as the worker thread runs it. *)
Definition invoke {A} := @retrying_call A "Invoke failed after " overloaded_invoke.

(** The invocations of the parent's method among the events. *)
Fixpoint invocations (evs : list event) : list nat :=
  match evs with
  | [] => []
  | Invoked a :: evs' => a :: invocations evs'
  | Slept _ :: evs' => invocations evs'
  end.

(** The delays slept among the events. *)
Fixpoint sleeps (evs : list event) : list Z :=
  match evs with
  | [] => []
  | Invoked _ :: evs' => sleeps evs'
  | Slept d :: evs' => d :: sleeps evs'
  end.

(** The sleeps among the events, each with the attempt it follows. *)
Fixpoint naps (evs : list event) : list (nat * Z) :=
  match evs with
  | [] => []
  | Invoked a :: evs' =>
      match evs' with
      | Slept d :: _ => (a, d) :: naps evs'
      | _ => naps evs'
      end
  | Slept _ :: evs' => naps evs'
  end.

(** What the loop promises of a sleep [nap]: it follows a failed attempt
    whose error is retryable, it lasts at least 60 when the error is an
    overload, and it is the value of [_calculate_backoff_delay] otherwise. *)
Definition nap_ok {A} (overloaded : exc -> bool) (self : RobustGeminiLLM)
    (super_call : nat -> outcome A) (rnd : nat -> Q) (nap : nat * Z) : Prop :=
  exists e, super_call (fst nap) = Raise e /\
            _is_retryable_error e = true /\
            (overloaded e = true -> (60 <= snd nap)%Z) /\
            (overloaded e = false ->
             snd nap = _calculate_backoff_delay self (fst nap) (rnd (fst nap))).

(** The seconds a run of the loop lasts when the [i]-th call of the parent's
    method lasts [latency i]. *)
Fixpoint run_time (latency : nat -> nat) (evs : list event) : nat :=
  match evs with
  | [] => 0
  | Invoked a :: evs' => latency a + run_time latency evs'
  | Slept d :: evs' => Z.to_nat d + run_time latency evs'
  end.

(** [_generate] under its [@timeout_handler] decorator, as its caller sees it. *)
Definition _generate_decorated {A} (self : RobustGeminiLLM)
    (super_call : nat -> outcome A) (latency : nat -> nat) (rnd : nat -> Q)
  : Clock.observed A :=
  let '(o, evs) := _generate self super_call rnd in
  timeout_handler (timeout self) (Clock.mkWork (Some (run_time latency evs)) o).

(** [invoke] under its [@timeout_handler] decorator, as its caller sees it. *)
Definition invoke_decorated {A} (self : RobustGeminiLLM)
    (super_call : nat -> outcome A) (latency : nat -> nat) (rnd : nat -> Q)
  : Clock.observed A :=
  let '(o, evs) := invoke self super_call rnd in
  timeout_handler (timeout self) (Clock.mkWork (Some (run_time latency evs)) o).

(** The least a retry after attempt [attempt] sleeps, and the least the
    loop sleeps when it goes through all its retries. *)
Definition least_sleep (self : RobustGeminiLLM) (attempt : nat) : nat :=
  Z.to_nat (11 * unjittered self attempt / 10).

Definition least_total_sleep (self : RobustGeminiLLM) : nat :=
  list_sum (map (least_sleep self) (seq 0 (max_retries self))).

(** [create_llm_with_robust_handling()], over the list [model_configs] from
    index [i] on; [test_invoke config] is what the body of the [try] does
    for [config]: building the model and calling its [invoke] once. *)
Fixpoint try_model_configs (test_invoke : RobustGeminiLLM -> outcome value)
    (model_configs : list RobustGeminiLLM) (i len : nat) : outcome RobustGeminiLLM :=
  match model_configs with
  | [] => Raise (Exception "Failed to initialize any LLM configuration")
  | config :: rest =>
      match test_invoke config with
      | Return _ => Return config
      | Raise e =>
          if (i =? len - 1)%nat then
            Raise (Exception ("All model configurations failed. Last error: "
                                ++ str_exc e))
          else try_model_configs test_invoke rest (S i) len
      end
  end.

Definition model_configs : list RobustGeminiLLM := [model_config].

Definition create_llm_with_robust_handling
    (test_invoke : RobustGeminiLLM -> outcome value) : outcome RobustGeminiLLM :=
  try_model_configs test_invoke model_configs 0 (List.length model_configs).

(** The remote search tool of [tools.py], the only tool of the program. *)
Inductive tool : Type := search_tool.

(** A crewai [Agent], with the arguments the program passes (the backstory
    text and the shared [llm] are left out). *)
Record Agent : Type := mkAgent {
  role : string;
  goal : string;
  verbose : bool;
  allow_delegation : bool;
  agent_tools : list tool;
  max_execution_time : nat
}.

Definition market_research_analyst : Agent :=
  {| role := "Market Research Analyst";
     goal := "Provide quick, focused market analysis with key insights";
     verbose := false;
     allow_delegation := false;
     agent_tools := [search_tool];
     max_execution_time := 240 |}.

Definition technology_expert : Agent :=
  {| role := "Technology Expert";
     goal := "Assess technical feasibility with practical recommendations";
     verbose := false;
     allow_delegation := false;
     agent_tools := [search_tool];
     max_execution_time := 240 |}.

Definition business_consultant : Agent :=
  {| role := "Business Consultant";
     goal := "Create actionable business strategies and launch plans";
     verbose := false;
     allow_delegation := false;
     agent_tools := [search_tool];
     max_execution_time := 240 |}.

End Agents.

(** ** config.py *)

Module Config.

Definition MAX_RETRIES : nat := 3.
Definition BASE_RETRY_DELAY : Z := 60.
Definition EXPONENTIAL_BACKOFF : bool := true.
Definition CREW_MAX_RETRIES : nat := 2.

(** [Config.get_retry_delay(attempt)]; no caller in the program. *)
Definition get_retry_delay (attempt : nat) : Z :=
  if EXPONENTIAL_BACKOFF then (BASE_RETRY_DELAY * 2 ^ Z.of_nat attempt)%Z
  else BASE_RETRY_DELAY.

(** [Config.validate_api_keys()], the two class attributes being what
    [os.getenv] returned for them. *)
Definition validate_api_keys (GOOGLE_API_KEY SERPER_API_KEY : option string)
  : list string :=
  let missing_keys : list string := [] in
  let missing_keys :=
    if negb (Py.truthy GOOGLE_API_KEY) then (missing_keys ++ ["GOOGLE_API_KEY"])%list
    else missing_keys in
  let missing_keys :=
    if negb (Py.truthy SERPER_API_KEY) then (missing_keys ++ ["SERPER_API_KEY"])%list
    else missing_keys in
  missing_keys.

End Config.

(** ** tasks.py *)

Module Tasks.
Import Agents.

(** A crewai [Task], with the arguments the program passes. *)
#[warnings="-register-all"] Inductive Task : Type :=
  mkTask (description : string) (agent : Agent) (expected_output : string)
         (context : list Task) (tools : list tool).

Definition description (t : Task) : string :=
  let 'mkTask d _ _ _ _ := t in d.
Definition agent (t : Task) : Agent :=
  let 'mkTask _ a _ _ _ := t in a.
Definition expected_output (t : Task) : string :=
  let 'mkTask _ _ e _ _ := t in e.
Definition context (t : Task) : list Task :=
  let 'mkTask _ _ _ c _ := t in c.
Definition tools (t : Task) : list tool :=
  let 'mkTask _ _ _ _ ts := t in ts.

(** [create_tasks(product_name)]. *)
Definition create_tasks (product_name : string) : list Task :=
  let task1 :=
    mkTask
      ("Conduct a rapid market analysis for " ++ product_name ++ ". 
                        Focus ONLY on essential information. Current date is June 2025.
                        
                        Provide exactly these 5 points (keep each under 2 sentences):
                        1. Primary target customer (age, income, behavior)
                        2. Market size estimate (global/regional)
                        3. Top 3 direct competitors
                        4. Best marketing channel (online/offline/hybrid)
                        5. Suggested price range
                        
                        Total response: Maximum 300 words. Be direct and specific.")
      market_research_analyst
      "5-point market analysis covering target customers, market size, competitors, marketing channel, and pricing (max 300 words)."
      []
      [search_tool] in
  let task2 :=
    mkTask
      ("Provide a basic technical assessment for " ++ product_name ++ ". 
                    Focus on practical implementation only.
                    
                    Cover exactly these 4 areas (2 sentences each):
                    1. Manufacturing method (how it's made)
                    2. Key equipment needed
                    3. Main quality control point
                    4. Biggest technical challenge
                    
                    Total response: Maximum 250 words. Focus on practicality.")
      technology_expert
      "4-point technical assessment covering manufacturing, equipment, quality control, and challenges (max 250 words)."
      []
      [search_tool] in
  let task3 :=
    mkTask
      ("Create a focused business strategy for " ++ product_name ++ " using the previous analyses.
                    Current date is June 2025.
                    
                    Provide exactly these 6 elements (keep each concise):
                    1. Business model (B2B/B2C/subscription/one-time)
                    2. Primary revenue stream
                    3. Launch timeline (3-6-12 months)
                    4. Success metric (1 key KPI)
                    5. Biggest risk
                    6. Initial funding estimate
                    
                    Total response: Maximum 350 words. Be actionable and realistic.")
      business_consultant
      "6-point business strategy with model, revenue, timeline, metrics, risks, and funding (max 350 words)."
      [task1; task2]
      [search_tool] in
  [task1; task2; task3].

(** [create_emergency_tasks(product_name)]. *)
Definition create_emergency_tasks (product_name : string) : list Task :=
  let task1 :=
    mkTask
      ("Quick analysis: Who would buy " ++ product_name ++ " and why? 
                        Answer in exactly 3 sentences. No research needed if obvious.")
      market_research_analyst
      "3-sentence customer analysis."
      []
      [] in
  let task2 :=
    mkTask
      ("Simple question: How difficult is it to make " ++ product_name ++ "? 
                        Answer in exactly 2 sentences.")
      technology_expert
      "2-sentence technical difficulty assessment."
      []
      [] in
  let task3 :=
    mkTask
      ("Basic business plan: How would you sell " ++ product_name ++ "? 
                        Answer in exactly 4 sentences covering: how to sell, pricing, timeline, main challenge.")
      business_consultant
      "4-sentence basic business plan."
      [task1; task2]
      [] in
  [task1; task2; task3].

(** The tools an agent can use while it carries out a task.  The program
    leaves this to crewai, which hands the agent the task's own list when
    that list is not empty and the agent's list otherwise. *)
Definition tools_for_task (t : Task) : list tool :=
  match tools t with
  | [] => agent_tools (agent t)
  | _ :: _ => tools t
  end.

(** In a task list, the context of every task is made of tasks that come
    before it, so that a sequential process has their outputs at hand. *)
Definition contexts_come_first (l : list Task) : Prop :=
  forall i t c, nth_error l i = Some t -> In c (context t) ->
                exists j, (j < i)%nat /\ nth_error l j = Some c.

End Tasks.

(** ** crew.py *)

Module Crew.
Import Py Agents Tasks.
Local Open Scope nat_scope.

Record strategy : Type := mkStrategy {
  name : string;
  timeout : nat;
  tasks : string
}.

Record AdaptiveCrewHandler : Type := mkHandler {
  product_name : string;
  strategies : list strategy;
  current_strategy : nat
}.

(** [AdaptiveCrewHandler(product_name)]. *)
Definition new_handler (product_name : string) : AdaptiveCrewHandler :=
  {| product_name := product_name;
     strategies :=
       [ {| name := "Full Analysis"; timeout := 600; tasks := "full" |};
         {| name := "Quick Analysis"; timeout := 300; tasks := "quick" |};
         {| name := "Emergency Analysis"; timeout := 120; tasks := "emergency" |} ];
     current_strategy := 0 |}.

Definition get_current_strategy (self : AdaptiveCrewHandler) : option strategy :=
  if (List.length (strategies self) <=? current_strategy self)%nat then None
  else nth_error (strategies self) (current_strategy self).

(** [next_strategy()]: the handler after the move, and what it returns. *)
Definition next_strategy (self : AdaptiveCrewHandler)
  : AdaptiveCrewHandler * option strategy :=
  let self' := {| product_name := product_name self;
                  strategies := strategies self;
                  current_strategy := current_strategy self + 1 |} in
  (self', get_current_strategy self').

Record Crew : Type := mkCrew {
  agents : list Agent;
  crew_tasks : list Task;
  crew_verbose : nat;
  crew_max_execution_time : nat
}.

Definition create_crew_for_strategy (self : AdaptiveCrewHandler) (s : strategy) : Crew :=
  let tasks_ :=
    if String.eqb (tasks s) "emergency" then create_emergency_tasks (product_name self)
    else if String.eqb (tasks s) "quick" then create_tasks (product_name self)
    else create_tasks (product_name self) in
  {| agents := [market_research_analyst; technology_expert; business_consultant];
     crew_tasks := tasks_;
     crew_verbose := if String.eqb (tasks s) "emergency" then 0 else 1;
     crew_max_execution_time := timeout s |}.

(** [execute_with_timeout(crew, timeout_seconds)], [run_crew] being the
    work [crew.kickoff()] is.  [future.result(timeout=...)] gives the
    outcome: the worker's, or [TimeoutError] when the worker is not done
    [timeout_seconds] after its start.  The worker's own exception is
    raised again inside the [try], whose [except FuturesTimeoutError]
    also catches a [TimeoutError] of the worker ([concurrent.futures]'s
    [TimeoutError] is the builtin one since Python 3.11) and replaces it.
    The outcome leaves the [with] block, whose exit is
    [executor.shutdown(wait=True)]: it joins the worker before control
    goes back to the caller. *)
Definition execute_with_timeout (run_crew : Clock.work value) (timeout_seconds : nat)
  : Clock.observed value :=
  let timed_out : outcome value :=
    Raise (TimeoutError ("Crew execution timed out after "
                           ++ str_of_nat timeout_seconds ++ " seconds")) in
  let in_block :=
    if Clock.alive_at run_crew timeout_seconds then
      (timeout_seconds, timed_out)
    else
      (match Clock.finishes run_crew with
       | Some t => t
       | None => timeout_seconds
       end,
       match Clock.produces run_crew with
       | Raise (TimeoutError _) => timed_out
       | own => own
       end) in
  match Clock.finishes run_crew with
  | Some t => Some (Nat.max (fst in_block) t, snd in_block)
  | None => None
  end.

(** What a run of [create_crewai_setup] does, in order. *)
Inductive step : Type :=
| Executed (attempt : nat) (strategy_name : string)
| Waited (wait_time : nat)
| Advanced.

Section Setup.
(** What [crew.kickoff()] is when attempt [i] starts the crew. *)
Variable kickoff : nat -> Crew -> Clock.work value.
Variable max_attempts : nat.

(** [for attempt in range(max_attempts)], [remaining] iterations being
    left and [attempt] the next index; [None] when the caller never gets
    control back. *)
Fixpoint attempts (remaining attempt : nat) (handler : AdaptiveCrewHandler)
  : option (value * list step) :=
  match remaining with
  | O => Some (Str "❌ Analysis could not be completed after all attempts.", [])
  | S remaining' =>
    match get_current_strategy handler with
    | None =>
        Some (Str "❌ All strategies exhausted. The API service appears to be unavailable.", [])
    | Some strategy =>
      let crew := create_crew_for_strategy handler strategy in
      let ran := Executed attempt (name strategy) in
      let continue (handler' : AdaptiveCrewHandler) (did : list step) :=
        match attempts remaining' (S attempt) handler' with
        | Some (r, more) => Some (r, ran :: did ++ more)
        | None => None
        end in
      match execute_with_timeout (kickoff attempt crew) (timeout strategy) with
      | None => None
      | Some (_, Return result) => Some (result, [ran])
      | Some (_, Raise (TimeoutError _)) =>
          if (attempt <? max_attempts - 1)%nat then
            continue (fst (next_strategy handler)) [Advanced]
          else
            Some (Str "❌ All strategies timed out. The service may be overloaded. Please try again later.", [ran])
      | Some (_, Raise (Exception msg)) =>
          let error_str := lower msg in
          if contains "overloaded" error_str || contains "503" error_str then
            if (attempt <? max_attempts - 1)%nat then
              let wait_time := (attempt + 1) * 60 in
              continue handler [Waited wait_time]
            else
              Some (Str "❌ Service is overloaded and all retry attempts failed. Please try again in 10-15 minutes.", [ran])
          else if any_in ["quota"; "rate limit"; "429"] error_str then
            if (attempt <? max_attempts - 1)%nat then
              let wait_time := (attempt + 1) * 90 in
              continue handler [Waited wait_time]
            else
              Some (Str "❌ API quota exhausted. Please try again later when your quota refreshes.", [ran])
          else
            if (attempt <? max_attempts - 1)%nat then
              continue (fst (next_strategy handler)) [Advanced]
            else
              Some (Str ("❌ Analysis failed with error: " ++ msg), [ran])
      end
    end
  end.
End Setup.

(** A run goes on after attempt [attempt] of the strategy named [ran]
    failed: the loop continues with [handler'], having done [did]. *)
Definition goes_on (kickoff : nat -> Crew -> Clock.work value) (max_attempts : nat)
    (remaining attempt : nat) (ran : string) (handler' : AdaptiveCrewHandler)
    (did : list step) : option (value * list step) :=
  match attempts kickoff max_attempts remaining (S attempt) handler' with
  | Some (r, more) => Some (r, Executed attempt ran :: did ++ more)
  | None => None
  end.

(** [create_crewai_setup(product_name, max_attempts)]. *)
Definition create_crewai_setup (kickoff : nat -> Crew -> Clock.work value)
    (product_name : string) (max_attempts : nat) : option (value * list step) :=
  attempts kickoff max_attempts max_attempts 0 (new_handler product_name).

(** The strategies a run executed, in order, each with its attempt index. *)
Fixpoint executed (steps : list step) : list (nat * string) :=
  match steps with
  | [] => []
  | Executed attempt strategy_name :: steps' => (attempt, strategy_name) :: executed steps'
  | _ :: steps' => executed steps'
  end.

(** The test of [main]:
    [isinstance(results, str) and results.startswith(...)], on the cross mark. *)
Definition main_sees_failure (results : value) : bool :=
  match results with
  | Str s => startswith s "❌"
  | Obj _ => false
  end.

(** The ladder index each executed strategy has when [i] is the index at
    the start: an [Advanced] step moves it by one. *)
Fixpoint positions (steps : list step) (i : nat) : list nat :=
  match steps with
  | [] => []
  | Executed _ _ :: steps' => i :: positions steps' i
  | Waited _ :: steps' => positions steps' i
  | Advanced :: steps' => positions steps' (S i)
  end.

(** The waits of a run, in order. *)
Fixpoint waits (steps : list step) : list nat :=
  match steps with
  | [] => []
  | Waited w :: steps' => w :: waits steps'
  | _ :: steps' => waits steps'
  end.

(** [input()] at the end of the input raises [EOFError]. *)
Definition eof_error : exc := Exception "EOF when reading a line".

(** [get_product_name()], [inputs] being the lines the user types: the
    name, and the lines not read yet. *)
Fixpoint get_product_name (inputs : list string) : outcome (string * list string) :=
  match inputs with
  | [] => Raise eof_error
  | line :: inputs1 =>
      let product_name := strip line in
      if String.eqb product_name "" then get_product_name inputs1
      else if 100 <? String.length product_name then get_product_name inputs1
      else
        if 5 <? List.length (split product_name) then
          match inputs1 with
          | [] => Raise eof_error
          | answer :: inputs2 =>
              let confirm := lower (strip answer) in
              if negb (isin confirm ["y"; "yes"]) then get_product_name inputs2
              else
                match inputs2 with
                | [] => Raise eof_error
                | answer' :: inputs3 =>
                    let confirm := lower (strip answer') in
                    if isin confirm ["y"; "yes"] then Return (product_name, inputs3)
                    else get_product_name inputs3
                end
          end
        else
          match inputs1 with
          | [] => Raise eof_error
          | answer' :: inputs2 =>
              let confirm := lower (strip answer') in
              if isin confirm ["y"; "yes"] then Return (product_name, inputs2)
              else get_product_name inputs2
          end
  end.

(** What [get_product_name] promises of the name it returns from [inputs],
    leaving [rest] unread: it is not empty, it has at most 100 characters
    and no white space at either end, it is a line of the input, stripped,
    and the last line read is a yes. *)
Definition validated (inputs : list string) (name : string) (rest : list string) : Prop :=
  name <> "" /\ String.length name <= 100 /\ strip name = name /\
  (exists line, In line inputs /\ name = strip line) /\
  (exists read answer,
      inputs = (read ++ answer :: rest)%list /\
      isin (lower (strip answer)) ["y"; "yes"] = true).

(** [check_service_status()], [getenv] being the environment and [llm_test]
    what [llm.invoke("test")] does. *)
Definition check_service_status (getenv : string -> option string)
    (llm_test : outcome value) : bool :=
  let required_keys := ["GOOGLE_API_KEY"; "SERPER_API_KEY"] in
  let missing_keys := filter (fun key => negb (truthy (getenv key))) required_keys in
  match missing_keys with
  | _ :: _ => false
  | [] =>
      match llm_test with
      | Return _ => true
      | Raise e =>
          if contains "overloaded" (lower (str_exc e)) || contains "503" (str_exc e)
          then true
          else true
      end
  end.

(** The file name [save_results] builds from the product name. *)
Definition analysis_filename (product_name : string) : string :=
  let safe_name :=
    rstrip (join_if (fun c => isalnum c
                              || isin (String c EmptyString) [" "; "-"; "_"])
                    product_name) in
  replace_char " " "_" (lower safe_name) ++ "_analysis.txt".

(** The characters a file name stem is made of: lower-case letters,
    digits, the hyphen and the underscore. *)
Definition filename_char (c : ascii) : bool :=
  let n := nat_of_ascii c in
  ((48 <=? n) && (n <=? 57)) || ((97 <=? n) && (n <=? 122))
  || (n =? 45) || (n =? 95).

(** What [save_results] writes, [now] being
    [time.strftime('%Y-%m-%d %H:%M:%S')]. *)
Definition report (now : string) (results : value) (product_name : string) : string :=
  "Business Analysis Report for: " ++ product_name ++ "
" ++ times "=" 60 ++ "

" ++ "Generated on: " ++ now ++ "
" ++ "Tool: CrewAI Adaptive Business Analyzer
" ++ times "=" 60 ++ "

" ++ str_value results.

(** [save_results(results, product_name)]; [write filename text] tells
    whether the file could be opened and written. *)
Definition save_results (write : string -> string -> bool) (now : string)
    (results : value) (product_name : string) : option string :=
  let filename := analysis_filename product_name in
  if write filename (report now results product_name) then Some filename
  else None.

(** How [main] ends: by [sys.exit(code)], or by returning. *)
Inductive main_end : Type :=
| SysExit (code : nat)
| MainReturn.

(** [main()]: how it ends and the file it saved, if any; [None] when it
    never ends.  An [EOFError] of [input] is caught by [except Exception],
    which exits with code 1. *)
Definition main (getenv : string -> option string) (llm_test : outcome value)
    (inputs : list string) (kickoff : nat -> Crew -> Clock.work value)
    (write : string -> string -> bool) (now : string)
  : option (main_end * option string) :=
  if negb (check_service_status getenv llm_test) then Some (SysExit 1, None)
  else
    match get_product_name inputs with
    | Raise _ => Some (SysExit 1, None)
    | Return (product_name, inputs') =>
        match create_crewai_setup kickoff product_name 3 with
        | None => None
        | Some (results, _) =>
            if main_sees_failure results then Some (MainReturn, None)
            else
              match inputs' with
              | [] => Some (SysExit 1, None)
              | answer :: _ =>
                  let save_choice := lower (strip answer) in
                  if isin save_choice ["y"; "yes"] then
                    Some (MainReturn, save_results write now results product_name)
                  else Some (MainReturn, None)
              end
        end
    end.

End Crew.

(** * Properties *)

(** ** The backoff delay *)

Module Backoff.
Import Py Agents.

Lemma int_nonneg (x : Q) : (0 <= x)%Q -> int x = Qfloor x.
Proof.
  intros Hx. unfold int.
  destruct (Qle_bool 0 x) eqn:E; [reflexivity|].
  apply Qle_bool_iff in Hx. congruence.
Qed.

Lemma unjittered_nonneg self a : (0 <= base_delay self)%Z -> (0 <= unjittered self a)%Z.
Proof. intros H. unfold unjittered. apply Z.mul_nonneg_nonneg; [assumption|]. apply Z.pow_nonneg. lia. Qed.

Lemma unjittered_double self a : unjittered self (S a) = (2 * unjittered self a)%Z.
Proof.
  unfold unjittered. rewrite Nat2Z.inj_succ, Z.pow_succ_r by lia. ring.
Qed.

(** The jittered value lies between 1.1 and 1.3 times a non-negative
    formula value. *)
Lemma jittered_bounds (d : Z) (u : Q) :
  (0 <= d)%Z -> uniform_01_03 u ->
  (11 * d # 10 <= inject_Z d + u * inject_Z d)%Q /\
  (inject_Z d + u * inject_Z d <= 13 * d # 10)%Q.
Proof.
  intros Hd [Hlo Hhi].
  assert (HD : (0 <= inject_Z d)%Q) by (unfold Qle; simpl; lia).
  split.
  - apply Qle_trans with (inject_Z d + (1 # 10) * inject_Z d)%Q.
    + unfold Qle, Qplus, Qmult, inject_Z; cbn [Qnum Qden]; lia.
    + apply Qplus_le_r. apply Qmult_le_compat_r; assumption.
  - apply Qle_trans with (inject_Z d + (3 # 10) * inject_Z d)%Q.
    + apply Qplus_le_r. apply Qmult_le_compat_r; assumption.
    + unfold Qle, Qplus, Qmult, inject_Z; cbn [Qnum Qden]; lia.
Qed.

Lemma Qfloor_frac (n : Z) (p : positive) : Qfloor (n # p) = (n / Zpos p)%Z.
Proof. reflexivity. Qed.

(** The delay as a truncated product, with its integer bounds. *)
Lemma delay_bounds self a u :
  (0 <= base_delay self)%Z -> uniform_01_03 u ->
  (11 * unjittered self a / 10 <= _calculate_backoff_delay self a u
   <= 13 * unjittered self a / 10)%Z.
Proof.
  intros Hb Hu.
  pose proof (unjittered_nonneg self a Hb) as Hf.
  destruct (jittered_bounds _ u Hf Hu) as [Hlo Hhi].
  unfold _calculate_backoff_delay. fold (unjittered self a).
  rewrite int_nonneg.
  - split.
    + rewrite <- Qfloor_frac. apply Qfloor_resp_le. exact Hlo.
    + rewrite <- Qfloor_frac. apply Qfloor_resp_le. exact Hhi.
  - apply Qle_trans with (11 * unjittered self a # 10)%Q; [|exact Hlo].
    unfold Qle; cbn [Qnum Qden]; lia.
Qed.


(** C7, as the code has it: for a non-negative base delay and a draw [u]
    of [0.1, 0.3], the backoff delay lies between the integer parts of 1.1
    and of 1.3 times [base * 2^attempt]; it is never less than
    [base * 2^attempt], and it is strictly greater as soon as
    [base * 2^attempt] is at least 10. *)
Theorem jittered_delay_truncated self a u :
  (0 <= base_delay self)%Z -> uniform_01_03 u ->
  (11 * unjittered self a / 10 <= _calculate_backoff_delay self a u
   <= 13 * unjittered self a / 10)%Z /\
  (unjittered self a <= _calculate_backoff_delay self a u)%Z /\
  ((10 <= unjittered self a)%Z ->
   (unjittered self a < _calculate_backoff_delay self a u)%Z).
Proof.
  intros Hb Hu.
  pose proof (unjittered_nonneg self a Hb) as Hf.
  pose proof (delay_bounds self a u Hb Hu) as [Hlo Hhi].
  split; [split; assumption|]. split.
  - apply Z.le_trans with (11 * unjittered self a / 10)%Z; [|exact Hlo].
    apply Z.div_le_lower_bound; lia.
  - intros H10.
    apply Z.lt_le_trans with (11 * unjittered self a / 10)%Z; [|exact Hlo].
    apply Z.lt_le_trans with (unjittered self a + 1)%Z; [lia|].
    apply Z.div_le_lower_bound; lia.
Qed.

Lemma jittered_delay_truncated_witness :
  (11 * unjittered model_config 2 / 10 <= _calculate_backoff_delay model_config 2 (1 # 5)
   <= 13 * unjittered model_config 2 / 10)%Z /\
  (unjittered model_config 2 <= _calculate_backoff_delay model_config 2 (1 # 5))%Z /\
  ((10 <= unjittered model_config 2)%Z ->
   (unjittered model_config 2 < _calculate_backoff_delay model_config 2 (1 # 5))%Z).
Proof.
  apply (jittered_delay_truncated model_config 2 (1 # 5)).
  - simpl. lia.
  - split; unfold Qle; simpl; lia.
Defined.

(** [Config.get_retry_delay] adds no jitter to its formula. *)
Lemma get_retry_delay_unjittered (attempt : nat) :
  Config.get_retry_delay attempt = (60 * 2 ^ Z.of_nat attempt)%Z.
Proof. reflexivity. Qed.

(** C7 fails as stated: with a base delay of 1 the first delay, drawn at
    the low end of the jitter, is exactly the unjittered value. *)
Lemma jitter_lost_by_truncation :
  uniform_01_03 (1 # 10) /\
  _calculate_backoff_delay {| max_retries := 5; base_delay := 1; timeout := 180 |} 0 (1 # 10)
    = unjittered {| max_retries := 5; base_delay := 1; timeout := 180 |} 0.
Proof.
  split.
  - split; unfold Qle; simpl; lia.
  - reflexivity.
Qed.

(** Two successive delays of the formula, whatever the two draws. *)
Lemma formula_delay_grows self a u u' :
  (1 <= base_delay self)%Z -> uniform_01_03 u -> uniform_01_03 u' ->
  (_calculate_backoff_delay self a u < _calculate_backoff_delay self (S a) u')%Z.
Proof.
  intros Hb Hu Hu'.
  assert (Hb0 : (0 <= base_delay self)%Z) by lia.
  pose proof (delay_bounds self a u Hb0 Hu) as [_ Hhi].
  pose proof (delay_bounds self (S a) u' Hb0 Hu') as [Hlo _].
  rewrite unjittered_double in Hlo.
  assert (Hf : (1 <= unjittered self a)%Z).
  { unfold unjittered.
    assert (0 < 2 ^ Z.of_nat a)%Z by (apply Z.pow_pos_nonneg; lia). nia. }
  eapply Z.le_lt_trans; [exact Hhi|].
  eapply Z.lt_le_trans; [|exact Hlo].
  set (f := unjittered self a) in *.
  assert (13 * f / 10 + 1 <= 11 * (2 * f) / 10)%Z; [|lia].
  apply Z.div_le_lower_bound; [lia|].
  assert (10 * (13 * f / 10) <= 13 * f)%Z by (apply Z.mul_div_le; lia).
  lia.
Qed.

(** C3, as the code has it: with a base delay of at least 1, the delay
    slept after a retryable failure that is not an overload is strictly
    greater at attempt [a + 1] than at attempt [a], whatever the draws of
    the jitter (hence in expectation).  After an overload the delay is the
    larger of 60 and the jittered formula; it is at least 60 and does not
    decrease; it is 60 at [a] and at [a + 1] while the jittered formula at
    [a + 1] is at most 60, and strictly greater at [a + 1] than at [a] as
    soon as the jittered formula at [a + 1] exceeds 60, which it does once
    [base * 2^(a+1)] is at least 60. *)
Theorem retry_delay_growth (overloaded : exc -> bool) self rnd e a :
  (1 <= base_delay self)%Z -> (forall i, uniform_01_03 (rnd i)) ->
  (overloaded e = false ->
   (retry_delay overloaded self rnd e a < retry_delay overloaded self rnd e (S a))%Z) /\
  (overloaded e = true ->
   (60 <= retry_delay overloaded self rnd e a
       <= retry_delay overloaded self rnd e (S a))%Z /\
   ((_calculate_backoff_delay self (S a) (rnd (S a)) <= 60)%Z ->
    retry_delay overloaded self rnd e a = 60%Z /\
    retry_delay overloaded self rnd e (S a) = 60%Z) /\
   ((60 < _calculate_backoff_delay self (S a) (rnd (S a)))%Z ->
    (retry_delay overloaded self rnd e a < retry_delay overloaded self rnd e (S a))%Z /\
    retry_delay overloaded self rnd e (S a)
    = _calculate_backoff_delay self (S a) (rnd (S a))) /\
   ((60 <= unjittered self (S a))%Z ->
    (60 < _calculate_backoff_delay self (S a) (rnd (S a)))%Z)).
Proof.
  intros Hb Hr.
  pose proof (formula_delay_grows self a (rnd a) (rnd (S a)) Hb (Hr a) (Hr (S a))) as Hlt.
  assert (Hb0 : (0 <= base_delay self)%Z) by lia.
  pose proof (delay_bounds self (S a) (rnd (S a)) Hb0 (Hr (S a))) as [Hlo _].
  unfold retry_delay. split; intros ->; [lia|].
  repeat split; try lia.
  intros H60.
  apply Z.lt_le_trans with (11 * unjittered self (S a) / 10)%Z; [|exact Hlo].
  apply Z.lt_le_trans with (unjittered self (S a) + 1)%Z; [lia|].
  apply Z.div_le_lower_bound; lia.
Qed.

Lemma retry_delay_growth_witness :
  (retry_delay overloaded_generate model_config (fun _ => 1 # 5)
               (Exception "503 overloaded") 2
   < retry_delay overloaded_generate model_config (fun _ => 1 # 5)
               (Exception "503 overloaded") 3)%Z /\
  retry_delay overloaded_generate model_config (fun _ => 1 # 5)
              (Exception "503 overloaded") 3
  = _calculate_backoff_delay model_config 3 (1 # 5).
Proof.
  refine (proj1 (proj2 (proj2 (proj2 (retry_delay_growth overloaded_generate model_config
            (fun _ => 1 # 5) (Exception "503 overloaded") 2 _ _) eq_refl))) _).
  - simpl. lia.
  - intros _. split; unfold Qle; simpl; lia.
  - vm_compute. reflexivity.
Defined.

(** C3 fails as stated: with the configured base delay of 10, the delay
    after an overload is 60 at attempt 0 and 60 again at attempt 1, for all
    draws of the jitter. *)
Lemma overloaded_delay_flat :
  _is_retryable_error (Exception "503 overloaded") = true /\
  overloaded_generate (Exception "503 overloaded") = true /\
  (forall rnd, (forall i, uniform_01_03 (rnd i)) ->
     retry_delay overloaded_generate model_config rnd (Exception "503 overloaded") 0 = 60%Z /\
     retry_delay overloaded_generate model_config rnd (Exception "503 overloaded") 1 = 60%Z).
Proof.
  split; [reflexivity|]. split; [reflexivity|].
  intros rnd Hr.
  assert (Hb : (0 <= base_delay model_config)%Z) by (simpl; lia).
  pose proof (delay_bounds model_config 0 (rnd 0%nat) Hb (Hr 0%nat)) as [_ H0].
  pose proof (delay_bounds model_config 1 (rnd 1%nat) Hb (Hr 1%nat)) as [_ H1].
  unfold retry_delay.
  change (overloaded_generate (Exception "503 overloaded")) with true.
  change (13 * unjittered model_config 0 / 10)%Z with 13%Z in H0.
  change (13 * unjittered model_config 1 / 10)%Z with 26%Z in H1.
  cbv iota. lia.
Qed.

End Backoff.

(** ** The retry loop of [_generate] and [invoke] *)

Module Retry.
Import Py Agents.

Section Loop.
Context {A : Type}.
Variable failed_after : string.
Variable overloaded : exc -> bool.
Variable self : RobustGeminiLLM.
Variable super_call : nat -> outcome A.
Variable rnd : nat -> Q.

Local Abbreviation loop := (retry_loop failed_after overloaded self super_call rnd).

(** One unfolding of the loop body on a failure that is retried. *)
Lemma loop_retry remaining attempt last e :
  super_call attempt = Raise e ->
  _is_retryable_error e = true ->
  (attempt < max_retries self)%nat ->
  (0 <= retry_delay overloaded self rnd e attempt)%Z ->
  loop (S remaining) attempt last
  = (fst (loop remaining (S attempt) (Some e)),
     Invoked attempt :: Slept (retry_delay overloaded self rnd e attempt)
       :: snd (loop remaining (S attempt) (Some e))).
Proof.
  intros Hc Hr Hlt Hd. cbn [retry_loop]. rewrite Hc, Hr.
  apply Nat.ltb_lt in Hlt. rewrite Hlt. cbn [andb].
  apply Z.ltb_ge in Hd. rewrite Hd.
  destruct (loop remaining (S attempt) (Some e)); reflexivity.
Qed.

(** One unfolding of the loop body on a failure that ends the loop. *)
Lemma loop_break remaining attempt last e :
  super_call attempt = Raise e ->
  _is_retryable_error e && (attempt <? max_retries self)%nat = false ->
  loop (S remaining) attempt last
  = (all_retries_failed failed_after self (Some e), [Invoked attempt]).
Proof. intros Hc Hb. cbn [retry_loop]. rewrite Hc, Hb. reflexivity. Qed.

Lemma first_failure_breaks e :
  super_call 0%nat = Raise e ->
  _is_retryable_error e = false ->
  retrying_call failed_after overloaded self super_call rnd
  = (all_retries_failed failed_after self (Some e), [Invoked 0]).
Proof.
  intros Hc Hr. unfold retrying_call. rewrite Nat.add_1_r.
  apply loop_break; [exact Hc | now rewrite Hr].
Qed.

(** The attempts invoked are consecutive from the first one, and there
    are no more of them than iterations. *)
Lemma loop_invocations remaining : forall attempt last,
  exists k, (k <= remaining)%nat /\
            invocations (snd (loop remaining attempt last)) = seq attempt k.
Proof.
  induction remaining as [|r IH]; intros attempt last.
  - exists 0%nat. split; [lia|reflexivity].
  - cbn [retry_loop].
    destruct (super_call attempt) as [v|e].
    + exists 1%nat. split; [lia|reflexivity].
    + destruct (_is_retryable_error e && (attempt <? max_retries self)%nat).
      * destruct (retry_delay overloaded self rnd e attempt <? 0)%Z.
        -- exists 1%nat. split; [lia|reflexivity].
        -- destruct (IH (S attempt) (Some e)) as [k [Hk Hs]].
           destruct (loop r (S attempt) (Some e)) as [o evs].
           exists (S k). split; [lia|]. cbn in *. now rewrite Hs.
      * exists 1%nat. split; [lia|reflexivity].
Qed.

(** Every sleep of the loop is as [nap_ok] says, and [naps] misses none. *)
Lemma loop_naps remaining : forall attempt last,
  Forall (nap_ok overloaded self super_call rnd) (naps (snd (loop remaining attempt last))) /\
  map snd (naps (snd (loop remaining attempt last)))
    = sleeps (snd (loop remaining attempt last)).
Proof.
  induction remaining as [|r IH]; intros attempt last.
  - split; [constructor|reflexivity].
  - cbn [retry_loop].
    destruct (super_call attempt) as [v|e] eqn:Hc.
    + split; [constructor|reflexivity].
    + destruct (_is_retryable_error e) eqn:Hr; cbn [andb];
        [destruct (attempt <? max_retries self)%nat|];
        try (split; [constructor|reflexivity]).
      destruct (retry_delay overloaded self rnd e attempt <? 0)%Z;
        [split; [constructor|reflexivity]|].
      destruct (IH (S attempt) (Some e)) as [Hall Hmap].
      destruct (loop r (S attempt) (Some e)) as [o evs].
      cbn [snd naps sleeps map] in *. split.
      * constructor; [|exact Hall].
        exists e. cbn [fst snd]. repeat split; try assumption.
        -- intros Ho. unfold retry_delay. rewrite Ho. lia.
        -- intros Ho. unfold retry_delay. now rewrite Ho.
      * now rewrite Hmap.
Qed.

(** An operation that fails with a retryable error at every attempt is
    invoked once per iteration, and the loop ends on the last error. *)
Lemma loop_always_failing :
  (forall i, exists e, super_call i = Raise e /\ _is_retryable_error e = true) ->
  (forall e i, (0 <= retry_delay overloaded self rnd e i)%Z) ->
  forall remaining attempt last,
    (attempt + remaining = max_retries self)%nat ->
    invocations (snd (loop (S remaining) attempt last)) = seq attempt (S remaining) /\
    exists e, super_call (max_retries self) = Raise e /\
              fst (loop (S remaining) attempt last)
              = all_retries_failed failed_after self (Some e).
Proof.
  intros Hfail Hpos.
  induction remaining as [|r IH]; intros attempt last Hsum.
  - destruct (Hfail attempt) as [e [Hc Hr]].
    rewrite (loop_break 0 attempt last e Hc).
    + split; [reflexivity|]. exists e. split; [|reflexivity].
      replace (max_retries self) with attempt by lia. exact Hc.
    + rewrite Hr. cbn [andb]. apply Nat.ltb_ge. lia.
  - destruct (Hfail attempt) as [e [Hc Hr]].
    rewrite (loop_retry (S r) attempt last e Hc Hr) by (try lia; apply Hpos).
    destruct (IH (S attempt) (Some e)) as [Hinv Hout]; [lia|].
    cbn [fst snd invocations]. split.
    + rewrite Hinv. reflexivity.
    + exact Hout.
Qed.

(** An iteration invokes its attempt. *)
Lemma loop_invokes_first remaining attempt last :
  In attempt (invocations (snd (loop (S remaining) attempt last))).
Proof.
  cbn [retry_loop].
  destruct (super_call attempt) as [v|e]; [now left|].
  destruct (_is_retryable_error e && (attempt <? max_retries self)%nat); [|now left].
  destruct (retry_delay overloaded self rnd e attempt <? 0)%Z; [now left|].
  destruct (loop remaining (S attempt) (Some e)). now left.
Qed.

(** A retryable failure of an attempt that is not the last one is followed
    by its sleep and then by the next attempt. *)
Lemma loop_sleeps_after_retry :
  (forall e i, (0 <= retry_delay overloaded self rnd e i)%Z) ->
  forall remaining attempt last a e,
    (attempt + remaining = max_retries self + 1)%nat ->
    In a (invocations (snd (loop remaining attempt last))) ->
    super_call a = Raise e -> _is_retryable_error e = true ->
    (a < max_retries self)%nat ->
    In (a, retry_delay overloaded self rnd e a) (naps (snd (loop remaining attempt last))) /\
    In (S a) (invocations (snd (loop remaining attempt last))).
Proof.
  intros Hpos. induction remaining as [|r IH]; intros attempt last a e Hsum Hin Hc Hr Hlt.
  - destruct Hin.
  - destruct (Nat.eq_dec a attempt) as [->|Hne].
    + destruct r as [|r]; [lia|].
      rewrite (loop_retry (S r) attempt last e Hc Hr Hlt (Hpos e attempt)).
      cbn [snd naps invocations]. split; [now left|].
      right. apply loop_invokes_first.
    + revert Hin. cbn [retry_loop].
      destruct (super_call attempt) as [v|e0] eqn:Hc0.
      { cbn. intros [H|[]]. congruence. }
      destruct (_is_retryable_error e0 && (attempt <? max_retries self)%nat).
      2:{ cbn. intros [H|[]]. congruence. }
      destruct (retry_delay overloaded self rnd e0 attempt <? 0)%Z.
      { cbn. intros [H|[]]. congruence. }
      specialize (IH (S attempt) (Some e0) a e).
      destruct (loop r (S attempt) (Some e0)) as [o evs].
      cbn [snd invocations naps] in *. intros [H|Hin]; [congruence|].
      destruct IH as [IH1 IH2]; try assumption; [lia|].
      split; right; assumption.
Qed.

(** The same of the whole call, with what the delay is. *)
Lemma call_sleeps_after_retry :
  (forall e i, (0 <= retry_delay overloaded self rnd e i)%Z) ->
  forall a e,
    In a (invocations (snd (retrying_call failed_after overloaded self super_call rnd))) ->
    super_call a = Raise e -> _is_retryable_error e = true ->
    (a < max_retries self)%nat ->
    exists d,
      In (a, d) (naps (snd (retrying_call failed_after overloaded self super_call rnd))) /\
      In (S a) (invocations (snd (retrying_call failed_after overloaded self super_call rnd))) /\
      (overloaded e = true ->
       d = Z.max (_calculate_backoff_delay self a (rnd a)) 60 /\ (60 <= d)%Z) /\
      (overloaded e = false -> d = _calculate_backoff_delay self a (rnd a)).
Proof.
  intros Hpos a e Hin Hc Hr Hlt.
  destruct (loop_sleeps_after_retry Hpos (max_retries self + 1) 0 None a e)
    as [H1 H2]; try assumption; [reflexivity|].
  exists (retry_delay overloaded self rnd e a). unfold retrying_call.
  split; [exact H1|]. split; [exact H2|].
  unfold retry_delay. split; intros ->; [split; [reflexivity|lia] | reflexivity].
Qed.
End Loop.

(** The delay slept is not negative when the base delay is not. *)
Lemma retry_delay_nonneg overloaded self rnd :
  (0 <= base_delay self)%Z -> (forall i, uniform_01_03 (rnd i)) ->
  forall e i, (0 <= retry_delay overloaded self rnd e i)%Z.
Proof.
  intros Hb Hr e i.
  pose proof (Backoff.delay_bounds self i (rnd i) Hb (Hr i)) as [Hlo _].
  pose proof (Backoff.unjittered_nonneg self i Hb) as Hf.
  assert (0 <= 11 * unjittered self i / 10)%Z by (apply Z.div_pos; lia).
  unfold retry_delay. destruct (overloaded e); lia.
Qed.

(** C8: in [_generate] and in [invoke] (base delay not negative), a
    retryable failure of an attempt before the last one is followed by a
    sleep and then by the next attempt; the sleep is the larger of 60 and
    the backoff formula, hence at least 60, when the failure is an
    overload, and the value of the backoff formula, unmodified, otherwise.
    There is no other sleep: every sleep follows such a failure. *)
Theorem overload_floor {A} self (super_call : nat -> outcome A) rnd :
  (0 <= base_delay self)%Z -> (forall i, uniform_01_03 (rnd i)) ->
  ((forall a e,
      In a (invocations (snd (_generate self super_call rnd))) ->
      super_call a = Raise e -> _is_retryable_error e = true ->
      (a < max_retries self)%nat ->
      exists d,
        In (a, d) (naps (snd (_generate self super_call rnd))) /\
        In (S a) (invocations (snd (_generate self super_call rnd))) /\
        (overloaded_generate e = true ->
         d = Z.max (_calculate_backoff_delay self a (rnd a)) 60 /\ (60 <= d)%Z) /\
        (overloaded_generate e = false ->
         d = _calculate_backoff_delay self a (rnd a))) /\
   Forall (nap_ok overloaded_generate self super_call rnd)
          (naps (snd (_generate self super_call rnd))) /\
   map snd (naps (snd (_generate self super_call rnd)))
     = sleeps (snd (_generate self super_call rnd))) /\
  ((forall a e,
      In a (invocations (snd (invoke self super_call rnd))) ->
      super_call a = Raise e -> _is_retryable_error e = true ->
      (a < max_retries self)%nat ->
      exists d,
        In (a, d) (naps (snd (invoke self super_call rnd))) /\
        In (S a) (invocations (snd (invoke self super_call rnd))) /\
        (overloaded_invoke e = true ->
         d = Z.max (_calculate_backoff_delay self a (rnd a)) 60 /\ (60 <= d)%Z) /\
        (overloaded_invoke e = false ->
         d = _calculate_backoff_delay self a (rnd a))) /\
   Forall (nap_ok overloaded_invoke self super_call rnd)
          (naps (snd (invoke self super_call rnd))) /\
   map snd (naps (snd (invoke self super_call rnd)))
     = sleeps (snd (invoke self super_call rnd))).
Proof.
  intros Hb Hr.
  split; (split; [apply call_sleeps_after_retry, retry_delay_nonneg; assumption
                 | apply loop_naps]).
Qed.

Lemma overload_floor_witness :
  exists d,
    In (0%nat, d)
       (naps (snd (_generate model_config
                     (fun _ => @Raise value (Exception "503 overloaded"))
                     (fun _ => 1 # 5)))) /\
    In 1%nat
       (invocations (snd (_generate model_config
                            (fun _ => @Raise value (Exception "503 overloaded"))
                            (fun _ => 1 # 5)))) /\
    (overloaded_generate (Exception "503 overloaded") = true ->
     d = Z.max (_calculate_backoff_delay model_config 0 (1 # 5)) 60 /\ (60 <= d)%Z) /\
    (overloaded_generate (Exception "503 overloaded") = false ->
     d = _calculate_backoff_delay model_config 0 (1 # 5)).
Proof.
  refine (proj1 (proj1 (overload_floor model_config
            (fun _ => @Raise value (Exception "503 overloaded")) (fun _ => 1 # 5) _ _))
            0%nat (Exception "503 overloaded") _ _ _ _).
  - simpl. lia.
  - intros _. split; unfold Qle; simpl; lia.
  - vm_compute. tauto.
  - reflexivity.
  - reflexivity.
  - simpl. lia.
Defined.

(** The message of the exception the loop raises after its last attempt. *)
Lemma all_retries_failed_raises {A} failed_after self e :
  @all_retries_failed A failed_after self (Some e)
  = Raise (Exception (failed_after ++ str_of_nat (max_retries self + 1)
                        ++ " attempts. Last error: " ++ str_exc e)).
Proof. reflexivity. Qed.

(** C5: an error whose message holds none of the known substrings is not
    retryable, and a call whose first failure is such an error invokes the
    remote operation exactly once, whatever [max_retries] is, and raises. *)
Theorem fatal_never_retried {A} self (super_call : nat -> outcome A) rnd e :
  (forall indicator, In indicator retryable_indicators ->
                     contains indicator (lower (str_exc e)) = false) ->
  super_call 0%nat = Raise e ->
  _is_retryable_error e = false /\
  _generate self super_call rnd
  = (Raise (Exception ("Failed after " ++ str_of_nat (max_retries self + 1)
                         ++ " attempts. Last error: " ++ str_exc e)),
     [Invoked 0]) /\
  invoke self super_call rnd
  = (Raise (Exception ("Invoke failed after " ++ str_of_nat (max_retries self + 1)
                         ++ " attempts. Last error: " ++ str_exc e)),
     [Invoked 0]).
Proof.
  intros Hnone Hc.
  assert (Hr : _is_retryable_error e = false).
  { unfold _is_retryable_error, any_in.
    destruct (existsb _ _) eqn:E; [|reflexivity].
    apply existsb_exists in E. destruct E as [ind [Hin Hcont]].
    rewrite (Hnone ind Hin) in Hcont. discriminate. }
  split; [exact Hr|].
  unfold _generate, invoke.
  split; rewrite (first_failure_breaks _ _ _ _ _ e Hc Hr); reflexivity.
Qed.

Lemma fatal_never_retried_witness :
  _is_retryable_error (Exception "Invalid API key") = false /\
  _generate model_config (fun _ => @Raise value (Exception "Invalid API key")) (fun _ => 1 # 5)
  = (Raise (Exception ("Failed after " ++ str_of_nat (max_retries model_config + 1)
                         ++ " attempts. Last error: "
                         ++ str_exc (Exception "Invalid API key"))),
     [Invoked 0]) /\
  invoke model_config (fun _ => @Raise value (Exception "Invalid API key")) (fun _ => 1 # 5)
  = (Raise (Exception ("Invoke failed after " ++ str_of_nat (max_retries model_config + 1)
                         ++ " attempts. Last error: "
                         ++ str_exc (Exception "Invalid API key"))),
     [Invoked 0]).
Proof.
  apply (fatal_never_retried model_config
           (fun _ => @Raise value (Exception "Invalid API key")) (fun _ => 1 # 5)
           (Exception "Invalid API key")).
  - intros indicator Hin. simpl in Hin.
    repeat (destruct Hin as [<- | Hin]; [reflexivity|]). destruct Hin.
  - reflexivity.
Defined.

(** C6: [_generate] and [invoke] invoke the remote operation at attempts
    [0, 1, ..., k - 1] for some [k <= max_retries + 1]; when the operation
    fails with a retryable error every time (the base delay not being
    negative) they invoke it at attempts [0, ..., max_retries], exactly
    [max_retries + 1] times, and then raise. *)
Theorem invocations_bounded {A} self (super_call : nat -> outcome A) rnd :
  ((exists k, (k <= max_retries self + 1)%nat /\
              invocations (snd (_generate self super_call rnd)) = seq 0 k) /\
   (exists k, (k <= max_retries self + 1)%nat /\
              invocations (snd (invoke self super_call rnd)) = seq 0 k)) /\
  ((0 <= base_delay self)%Z ->
   (forall i, uniform_01_03 (rnd i)) ->
   (forall i, exists e, super_call i = Raise e /\ _is_retryable_error e = true) ->
   (invocations (snd (_generate self super_call rnd)) = seq 0 (max_retries self + 1) /\
    exists e, fst (_generate self super_call rnd) = Raise e) /\
   (invocations (snd (invoke self super_call rnd)) = seq 0 (max_retries self + 1) /\
    exists e, fst (invoke self super_call rnd) = Raise e)).
Proof.
  split.
  - split; apply loop_invocations.
  - intros Hb Hr Hfail.
    unfold _generate, invoke, retrying_call. rewrite Nat.add_1_r.
    split.
    + destruct (loop_always_failing "Failed after " overloaded_generate self
                  super_call rnd Hfail (retry_delay_nonneg _ self rnd Hb Hr)
                  (max_retries self) 0%nat None eq_refl) as [Hinv [e [_ Hout]]].
      split; [exact Hinv|]. rewrite Hout, all_retries_failed_raises. eauto.
    + destruct (loop_always_failing "Invoke failed after " overloaded_invoke self
                  super_call rnd Hfail (retry_delay_nonneg _ self rnd Hb Hr)
                  (max_retries self) 0%nat None eq_refl) as [Hinv [e [_ Hout]]].
      split; [exact Hinv|]. rewrite Hout, all_retries_failed_raises. eauto.
Qed.

Lemma invocations_bounded_witness :
  invocations (snd (_generate model_config
                      (fun _ => @Raise value (Exception "503 overloaded"))
                      (fun _ => 1 # 5)))
  = seq 0 (max_retries model_config + 1).
Proof.
  refine (proj1 (proj1 (proj2 (invocations_bounded model_config
           (fun _ => @Raise value (Exception "503 overloaded")) (fun _ => 1 # 5)) _ _ _))).
  - simpl. lia.
  - intros _. split; unfold Qle; simpl; lia.
  - intros _. exists (Exception "503 overloaded"). split; reflexivity.
Defined.

End Retry.

(** ** Bounded execution *)

Module Bounded.
Import Py Agents Crew.
Local Open Scope nat_scope.

(** [timeout_handler] gives control back by the deadline, whatever the
    work does, and with a [TimeoutError] when the work is not done then. *)
Lemma timeout_handler_within_deadline {A} (timeout : nat) (w : Clock.work A) :
  exists t o, timeout_handler timeout w = Some (t, o) /\ t <= timeout /\
              (Clock.alive_at w timeout = true -> exists m, o = Raise (TimeoutError m)).
Proof.
  unfold timeout_handler.
  destruct (Clock.alive_at w timeout) eqn:Ha.
  - eexists _, _. split; [reflexivity|]. split; [|eauto].
    destruct (Clock.finishes w); lia.
  - eexists _, _. split; [reflexivity|]. split; [|discriminate].
    destruct (Clock.finishes w); lia.
Qed.

(** [execute_with_timeout] gives control back when the worker ends, not
    before. *)
Lemma execute_with_timeout_returns_at_end (w : Clock.work value) (deadline t : nat) :
  Clock.finishes w = Some t ->
  exists o, execute_with_timeout w deadline = Some (t, o).
Proof.
  intros Hf. unfold execute_with_timeout, Clock.alive_at. rewrite Hf.
  destruct (deadline <? t) eqn:E; cbn [fst snd]; eexists; f_equal; f_equal.
  - apply Nat.ltb_lt in E. lia.
  - lia.
Qed.

Lemma execute_times_out (w : Clock.work value) (deadline t : nat) :
  Clock.finishes w = Some t -> deadline < t ->
  execute_with_timeout w deadline
  = Some (t, Raise (TimeoutError ("Crew execution timed out after "
                                    ++ str_of_nat deadline ++ " seconds"))).
Proof.
  intros Hf Hlt. unfold execute_with_timeout, Clock.alive_at. rewrite Hf.
  apply Nat.ltb_lt in Hlt. rewrite Hlt. cbn [fst snd].
  apply Nat.ltb_lt in Hlt. do 2 f_equal. lia.
Qed.


(** The caller of the decorated [_generate] has control back within the
    [timeout] of the model. *)
Lemma generate_decorated_within_timeout {A} self (super_call : nat -> outcome A)
    latency rnd :
  exists t o, _generate_decorated self super_call latency rnd = Some (t, o) /\
              t <= Agents.timeout self.
Proof.
  unfold _generate_decorated.
  destruct (_generate self super_call rnd) as [o evs].
  destruct (timeout_handler_within_deadline (Agents.timeout self)
              (Clock.mkWork (Some (run_time latency evs)) o)) as [t [o' [H [Hle _]]]].
  eauto.
Qed.

(** C2 at a failing input: a crew that needs 700 seconds under a deadline
    of 600 gives [TimeoutError] to the caller after 700 seconds, and a crew
    that never ends never gives control back. *)
Theorem execute_with_timeout_waits_for_worker :
  execute_with_timeout (Clock.mkWork (Some 700) (Return (Obj "report"))) 600
  = Some (700, Raise (TimeoutError "Crew execution timed out after 600 seconds")) /\
  execute_with_timeout (Clock.mkWork None (Return (Obj "report"))) 600 = None.
Proof. split; reflexivity. Qed.

End Bounded.

(** ** The emergency tasks *)

Module Emergency.
Import Py Agents Tasks.

(** C4 on the code: each emergency task is built with an empty tool list,
    and each is given to an agent built with [search_tool], which is what
    the agent then has at hand for the task. *)
Theorem emergency_tasks_reach_search_tool (product_name : string) :
  Forall (fun t => tools t = [] /\
                   agent_tools (agent t) = [search_tool] /\
                   tools_for_task t = [search_tool])
         (create_emergency_tasks product_name).
Proof.
  unfold create_emergency_tasks. repeat constructor.
Qed.

End Emergency.

(** ** The strategy ladder of [create_crewai_setup] *)

Module Ladder.
Import Py Agents Tasks Crew.
Local Open Scope nat_scope.

Section Steps.
Variable kickoff : nat -> Crew -> Clock.work value.
Variable max_attempts : nat.

Local Abbreviation run := (attempts kickoff max_attempts).

(** The loop body when a strategy is current, by the outcome of its run. *)
Lemma attempt_unfold remaining attempt handler s :
  get_current_strategy handler = Some s ->
  run (S remaining) attempt handler
  = match execute_with_timeout
            (kickoff attempt (create_crew_for_strategy handler s)) (timeout s) with
    | None => None
    | Some (_, Return result) => Some (result, [Executed attempt (name s)])
    | Some (_, Raise (TimeoutError _)) =>
        if attempt <? max_attempts - 1 then
          goes_on kickoff max_attempts remaining attempt (name s)
                  (fst (next_strategy handler)) [Advanced]
        else
          Some (Str "❌ All strategies timed out. The service may be overloaded. Please try again later.",
                [Executed attempt (name s)])
    | Some (_, Raise (Exception msg)) =>
        if contains "overloaded" (lower msg) || contains "503" (lower msg) then
          if attempt <? max_attempts - 1 then
            goes_on kickoff max_attempts remaining attempt (name s)
                    handler [Waited ((attempt + 1) * 60)]
          else
            Some (Str "❌ Service is overloaded and all retry attempts failed. Please try again in 10-15 minutes.",
                  [Executed attempt (name s)])
        else if any_in ["quota"; "rate limit"; "429"] (lower msg) then
          if attempt <? max_attempts - 1 then
            goes_on kickoff max_attempts remaining attempt (name s)
                    handler [Waited ((attempt + 1) * 90)]
          else
            Some (Str "❌ API quota exhausted. Please try again later when your quota refreshes.",
                  [Executed attempt (name s)])
        else
          if attempt <? max_attempts - 1 then
            goes_on kickoff max_attempts remaining attempt (name s)
                    (fst (next_strategy handler)) [Advanced]
          else
            Some (Str ("❌ Analysis failed with error: " ++ msg),
                  [Executed attempt (name s)])
    end.
Proof.
  intros Hs. cbn [attempts]. rewrite Hs. reflexivity.
Qed.

Lemma attempt_unfold_none remaining attempt handler :
  get_current_strategy handler = None ->
  run (S remaining) attempt handler
  = Some (Str "❌ All strategies exhausted. The API service appears to be unavailable.", []).
Proof. intros Hs. cbn [attempts]. rewrite Hs. reflexivity. Qed.

(** The loop body when the run of the current strategy times out. *)
Lemma attempt_times_out remaining attempt handler s :
  get_current_strategy handler = Some s ->
  (forall i crew, exists t m,
      execute_with_timeout (kickoff i crew) (crew_max_execution_time crew)
      = Some (t, Raise (TimeoutError m))) ->
  run (S remaining) attempt handler
  = if attempt <? max_attempts - 1 then
      goes_on kickoff max_attempts remaining attempt (name s)
              (fst (next_strategy handler)) [Advanced]
    else
      Some (Str "❌ All strategies timed out. The service may be overloaded. Please try again later.",
            [Executed attempt (name s)]).
Proof.
  intros Hs Hslow. rewrite (attempt_unfold remaining attempt handler s Hs).
  destruct (Hslow attempt (create_crew_for_strategy handler s)) as [t [m Hx]].
  change (crew_max_execution_time (create_crew_for_strategy handler s))
    with (timeout s) in Hx.
  rewrite Hx. reflexivity.
Qed.

End Steps.


(** C1, as the code has it: when an attempt that is not the last one fails,
    a timeout or an unclassified error advances to the next strategy with
    no wait; an overload waits [(attempt + 1) * 60] and a quota or rate
    limit error waits [(attempt + 1) * 90], and both go on with the same
    handler, hence with the same strategy. *)
Theorem escalation_by_cause kickoff max_attempts remaining attempt handler s t e :
  get_current_strategy handler = Some s ->
  attempt < max_attempts - 1 ->
  execute_with_timeout (kickoff attempt (create_crew_for_strategy handler s)) (timeout s)
  = Some (t, Raise e) ->
  attempts kickoff max_attempts (S remaining) attempt handler
  = match e with
    | TimeoutError _ =>
        goes_on kickoff max_attempts remaining attempt (name s)
                (fst (next_strategy handler)) [Advanced]
    | Exception msg =>
        if contains "overloaded" (lower msg) || contains "503" (lower msg) then
          goes_on kickoff max_attempts remaining attempt (name s)
                  handler [Waited ((attempt + 1) * 60)]
        else if any_in ["quota"; "rate limit"; "429"] (lower msg) then
          goes_on kickoff max_attempts remaining attempt (name s)
                  handler [Waited ((attempt + 1) * 90)]
        else
          goes_on kickoff max_attempts remaining attempt (name s)
                  (fst (next_strategy handler)) [Advanced]
    end.
Proof.
  intros Hs Hlt Hx.
  rewrite (attempt_unfold kickoff max_attempts remaining attempt handler s Hs), Hx.
  apply Nat.ltb_lt in Hlt. rewrite Hlt.
  destruct e as [m|msg]; [reflexivity|].
  destruct (contains "overloaded" (lower msg) || contains "503" (lower msg));
    [reflexivity|].
  destruct (any_in ["quota"; "rate limit"; "429"] (lower msg)); reflexivity.
Qed.

Lemma escalation_by_cause_witness :
  attempts (fun _ _ => Clock.mkWork (Some 7) (Raise (Exception "503 overloaded")))
           3 3 0 (new_handler "Widget")
  = goes_on (fun _ _ => Clock.mkWork (Some 7) (Raise (Exception "503 overloaded")))
            3 2 0 "Full Analysis" (new_handler "Widget") [Waited 60].
Proof.
  apply (escalation_by_cause
           (fun _ _ => Clock.mkWork (Some 7) (Raise (Exception "503 overloaded")))
           3 2 0 (new_handler "Widget")
           {| name := "Full Analysis"; timeout := 600; tasks := "full" |}
           7 (Exception "503 overloaded")).
  - reflexivity.
  - simpl. lia.
  - reflexivity.
Defined.

(** C1 fails as stated: when every run fails with an overload, the
    orchestrator waits 60, then 120, and runs the first strategy each
    time; it never advances. *)
Lemma overload_does_not_advance :
  create_crewai_setup
    (fun _ _ => Clock.mkWork (Some 7) (Raise (Exception "503 overloaded")))
    "Widget" 3
  = Some (Str "❌ Service is overloaded and all retry attempts failed. Please try again in 10-15 minutes.",
          [Executed 0 "Full Analysis"; Waited 60;
           Executed 1 "Full Analysis"; Waited 120;
           Executed 2 "Full Analysis"]).
Proof. vm_compute. reflexivity. Qed.

(** The ladder when every run gives a [TimeoutError] back. *)
Lemma timeouts_walk_the_ladder kickoff product_name max_attempts :
  3 <= max_attempts ->
  (forall i crew, exists t m,
      execute_with_timeout (kickoff i crew) (crew_max_execution_time crew)
      = Some (t, Raise (TimeoutError m))) ->
  exists msg steps,
    create_crewai_setup kickoff product_name max_attempts = Some (Str msg, steps) /\
    executed steps
    = [(0, "Full Analysis"); (1, "Quick Analysis"); (2, "Emergency Analysis")] /\
    main_sees_failure (Str msg) = true.
Proof.
  intros Hmax Hslow.
  destruct max_attempts as [|[|[|m]]]; try lia.
  unfold create_crewai_setup.
  set (h0 := new_handler product_name).
  rewrite (attempt_times_out kickoff _ _ 0 h0
             {| name := "Full Analysis"; timeout := 600; tasks := "full" |}
             eq_refl Hslow).
  change (0 <? S (S (S m)) - 1) with true. cbv iota. unfold goes_on.
  rewrite (attempt_times_out kickoff _ _ 1 (fst (next_strategy h0))
             {| name := "Quick Analysis"; timeout := 300; tasks := "quick" |}
             eq_refl Hslow).
  change (1 <? S (S (S m)) - 1) with true. cbv iota. unfold goes_on.
  rewrite (attempt_times_out kickoff _ _ 2
             (fst (next_strategy (fst (next_strategy h0))))
             {| name := "Emergency Analysis"; timeout := 120; tasks := "emergency" |}
             eq_refl Hslow).
  destruct m as [|m].
  - change (2 <? 3 - 1) with false. cbv iota.
    eexists _, _. split; [reflexivity|]. split; reflexivity.
  - change (2 <? S (S (S (S m))) - 1) with true. cbv iota. unfold goes_on.
    rewrite attempt_unfold_none by reflexivity.
    eexists _, _. split; [reflexivity|]. split; reflexivity.
Qed.

(** When the worker of every run ends, but after the timeout of its
    strategy, a setup allowed at least three attempts executes Full, Quick
    and Emergency, in this order and once each, and returns a failure
    string. *)
Theorem late_pipelines_walk_the_ladder kickoff product_name max_attempts :
  3 <= max_attempts ->
  (forall i crew, exists t, Clock.finishes (kickoff i crew) = Some t /\
                            crew_max_execution_time crew < t) ->
  exists msg steps,
    create_crewai_setup kickoff product_name max_attempts = Some (Str msg, steps) /\
    executed steps
    = [(0, "Full Analysis"); (1, "Quick Analysis"); (2, "Emergency Analysis")] /\
    main_sees_failure (Str msg) = true.
Proof.
  intros Hmax Hlate. apply timeouts_walk_the_ladder; [exact Hmax|].
  intros i crew. destruct (Hlate i crew) as [t [Hf Hlt]].
  eexists _, _. apply (Bounded.execute_times_out _ _ t Hf Hlt).
Qed.

Lemma late_pipelines_walk_the_ladder_witness :
  exists msg steps,
    create_crewai_setup
      (fun _ crew => Clock.mkWork (Some (crew_max_execution_time crew + 100))
                                  (Return (Obj "report")))
      "Widget" 3
    = Some (Str msg, steps) /\
    executed steps
    = [(0, "Full Analysis"); (1, "Quick Analysis"); (2, "Emergency Analysis")] /\
    main_sees_failure (Str msg) = true.
Proof.
  apply (late_pipelines_walk_the_ladder
           (fun _ crew => Clock.mkWork (Some (crew_max_execution_time crew + 100))
                                       (Return (Obj "report")))
           "Widget" 3).
  - lia.
  - intros i crew. exists (crew_max_execution_time crew + 100).
    split; [reflexivity | lia].
Defined.

(** C9 at a failing input: when the worker of the first run never ends,
    [execute_with_timeout] never gives control back, so
    [create_crewai_setup] never returns, whatever number of attempts it is
    allowed: the quick and emergency strategies are not reached and no
    failure string is returned. *)
Theorem hung_pipeline_blocks_the_ladder (product_name : string) (max_attempts : nat) :
  create_crewai_setup
    (fun _ _ => Clock.mkWork None (Return (Obj "report")))
    product_name (S max_attempts)
  = None.
Proof.
  unfold create_crewai_setup.
  rewrite (attempt_unfold _ (S max_attempts) max_attempts 0 (new_handler product_name)
             {| name := "Full Analysis"; timeout := 600; tasks := "full" |} eq_refl).
  reflexivity.
Qed.



End Ladder.

(** ** Strings *)

Module Strings.
Import Py.

Lemma lower_app (a b : string) : lower (a ++ b) = lower a ++ lower b.
Proof. induction a as [|c a IH]; cbn; [reflexivity | now rewrite IH]. Qed.

Lemma contains_app_r (needle a b : string) :
  contains needle b = true -> contains needle (a ++ b) = true.
Proof.
  intros H. induction a as [|c a IH]; [exact H|].
  cbn [append contains]. rewrite IH. apply orb_true_r.
Qed.

Lemma prefix_app (p s : string) : prefix p (p ++ s) = true.
Proof.
  induction p as [|c p IH]; [destruct s; reflexivity|].
  cbn. destruct (ascii_dec c c); [exact IH | congruence].
Qed.

Lemma contains_prefix (needle s : string) :
  prefix needle s = true -> contains needle s = true.
Proof. intros H. destruct s; cbn [contains]; rewrite H; reflexivity. Qed.

Lemma contains_app_mid (needle a b : string) :
  contains needle (a ++ needle ++ b) = true.
Proof. apply contains_app_r, contains_prefix, prefix_app. Qed.

(** Lower-casing neither makes nor unmakes a digit. *)
Lemma lower_keeps_digit (d c : ascii) :
  (48 <=? nat_of_ascii d)%nat && (nat_of_ascii d <=? 57)%nat = true ->
  (if ascii_dec d (lower_ascii c) then true else false)
  = (if ascii_dec d c then true else false).
Proof.
  intros Hd. unfold lower_ascii.
  destruct ((65 <=? nat_of_ascii c)%nat && (nat_of_ascii c <=? 90)%nat) eqn:Hc;
    [|reflexivity].
  apply andb_true_iff in Hd, Hc. destruct Hd as [Hd1 Hd2], Hc as [Hc1 Hc2].
  apply Nat.leb_le in Hd1, Hd2, Hc1, Hc2.
  destruct (ascii_dec d (ascii_of_nat (nat_of_ascii c + 32))) as [E|_].
  - exfalso. apply (f_equal nat_of_ascii) in E.
    rewrite nat_ascii_embedding in E by lia. lia.
  - destruct (ascii_dec d c) as [E|_]; [|reflexivity].
    exfalso. subst. lia.
Qed.

Lemma prefix_503_lower (s : string) : prefix "503" (lower s) = prefix "503" s.
Proof.
  destruct s as [|c1 s]; [reflexivity|]. cbn [lower prefix].
  pose proof (lower_keeps_digit "5" c1 eq_refl) as H1.
  destruct (ascii_dec "5" (lower_ascii c1)), (ascii_dec "5" c1); try discriminate;
    [|reflexivity].
  destruct s as [|c2 s]; [reflexivity|]. cbn [lower prefix].
  pose proof (lower_keeps_digit "0" c2 eq_refl) as H2.
  destruct (ascii_dec "0" (lower_ascii c2)), (ascii_dec "0" c2); try discriminate;
    [|reflexivity].
  destruct s as [|c3 s]; [reflexivity|]. cbn [lower prefix].
  pose proof (lower_keeps_digit "3" c3 eq_refl) as H3.
  destruct (ascii_dec "3" (lower_ascii c3)), (ascii_dec "3" c3); try discriminate;
    [|reflexivity].
  destruct s; reflexivity.
Qed.

Lemma contains_503_lower (s : string) : contains "503" (lower s) = contains "503" s.
Proof.
  induction s as [|c s IH]; [reflexivity|].
  change (lower (String c s)) with (String (lower_ascii c) (lower s)).
  cbn [contains]. rewrite IH. f_equal.
  apply (prefix_503_lower (String c s)).
Qed.

End Strings.

(** ** More on the retry loop *)

Module RetryMore.
Import Py Agents.

Section Prefix.
Context {A : Type}.
Variable failed_after : string.
Variable overloaded : exc -> bool.
Variable self : RobustGeminiLLM.
Variable super_call : nat -> outcome A.
Variable rnd : nat -> Q.

Local Abbreviation loop := (retry_loop failed_after overloaded self super_call rnd).

(** [k] retryable failures in a row are [k] invocations and [k] sleeps,
    after which the loop is where it would be had it started at attempt
    [attempt + k]. *)
Lemma loop_skips_failures :
  (forall e i, (0 <= retry_delay overloaded self rnd e i)%Z) ->
  forall k attempt remaining last,
    (attempt + k <= max_retries self)%nat ->
    (forall i, (i < k)%nat ->
       exists e, super_call (attempt + i) = Raise e /\ _is_retryable_error e = true) ->
    exists last',
      fst (loop (k + remaining) attempt last) = fst (loop remaining (attempt + k) last') /\
      invocations (snd (loop (k + remaining) attempt last))
      = (seq attempt k ++ invocations (snd (loop remaining (attempt + k) last')))%list /\
      List.length (sleeps (snd (loop (k + remaining) attempt last)))
      = (k + List.length (sleeps (snd (loop remaining (attempt + k) last'))))%nat.
Proof.
  intros Hpos. induction k as [|k IH]; intros attempt remaining last Hle Hfail.
  - exists last. rewrite Nat.add_0_r. repeat split.
  - destruct (Hfail 0%nat) as [e [Hc Hr]]; [lia|].
    rewrite Nat.add_0_r in Hc.
    destruct (IH (S attempt) remaining (Some e)) as [last' [Hfst [Hinv Hsl]]]; [lia| |].
    { intros i Hi. destruct (Hfail (S i)) as [e' He']; [lia|].
      exists e'. now rewrite Nat.add_succ_comm. }
    exists last'. replace (attempt + S k)%nat with (S attempt + k)%nat by lia.
    change (S k + remaining)%nat with (S (k + remaining)).
    rewrite (Retry.loop_retry _ _ _ _ _ _ attempt last e Hc Hr) by (try lia; apply Hpos).
    cbn [fst snd invocations sleeps List.length seq app].
    rewrite Hfst, Hinv, Hsl. repeat split.
Qed.

(** Under errors that are all overloads, the loop sleeps 60 seconds or
    more before each attempt but the first. *)
Lemma loop_overloaded_run_time (latency : nat -> nat) :
  (forall i, exists e, super_call i = Raise e /\ _is_retryable_error e = true /\
                       overloaded e = true) ->
  forall remaining attempt last,
    (attempt + remaining = max_retries self)%nat ->
    (60 * remaining <= run_time latency (snd (loop (S remaining) attempt last)))%nat.
Proof.
  intros Hfail. induction remaining as [|r IH]; intros attempt last Hsum; [lia|].
  destruct (Hfail attempt) as [e [Hc [Hr Ho]]].
  assert (Hd : (60 <= retry_delay overloaded self rnd e attempt)%Z).
  { unfold retry_delay. rewrite Ho. lia. }
  rewrite (Retry.loop_retry _ _ _ _ _ _ attempt last e Hc Hr) by lia.
  cbn [snd run_time].
  specialize (IH (S attempt) (Some e)). lia.
Qed.

(** The whole call after [k] retryable failures in a row. *)
Lemma call_reaches (k : nat) :
  (forall e i, (0 <= retry_delay overloaded self rnd e i)%Z) ->
  (k <= max_retries self)%nat ->
  (forall i, (i < k)%nat ->
     exists e, super_call i = Raise e /\ _is_retryable_error e = true) ->
  exists last',
    fst (retrying_call failed_after overloaded self super_call rnd)
    = fst (loop (S (max_retries self - k)) k last') /\
    invocations (snd (retrying_call failed_after overloaded self super_call rnd))
    = (seq 0 k ++ invocations (snd (loop (S (max_retries self - k)) k last')))%list /\
    List.length (sleeps (snd (retrying_call failed_after overloaded self super_call rnd)))
    = (k + List.length (sleeps (snd (loop (S (max_retries self - k)) k last'))))%nat.
Proof.
  intros Hpos Hk Hfail. unfold retrying_call.
  replace (max_retries self + 1)%nat with (k + S (max_retries self - k))%nat by lia.
  apply (loop_skips_failures Hpos k 0%nat (S (max_retries self - k)) None); [lia|].
  exact Hfail.
Qed.

Lemma call_first_success (k : nat) (v : A) :
  (forall e i, (0 <= retry_delay overloaded self rnd e i)%Z) ->
  (k <= max_retries self)%nat ->
  (forall i, (i < k)%nat ->
     exists e, super_call i = Raise e /\ _is_retryable_error e = true) ->
  super_call k = Return v ->
  fst (retrying_call failed_after overloaded self super_call rnd) = Return v /\
  invocations (snd (retrying_call failed_after overloaded self super_call rnd))
  = seq 0 (S k) /\
  List.length (sleeps (snd (retrying_call failed_after overloaded self super_call rnd))) = k.
Proof.
  intros Hpos Hk Hfail Hv.
  destruct (call_reaches k Hpos Hk Hfail) as [last' [Hfst [Hinv Hsl]]].
  rewrite Hfst, Hinv, Hsl. cbn [retry_loop]. rewrite Hv.
  cbn [fst snd invocations sleeps List.length]. rewrite seq_S.
  repeat split. lia.
Qed.

Lemma call_first_fatal (k : nat) (e : exc) :
  (forall e i, (0 <= retry_delay overloaded self rnd e i)%Z) ->
  (k <= max_retries self)%nat ->
  (forall i, (i < k)%nat ->
     exists e, super_call i = Raise e /\ _is_retryable_error e = true) ->
  super_call k = Raise e -> _is_retryable_error e = false ->
  fst (retrying_call failed_after overloaded self super_call rnd)
  = all_retries_failed failed_after self (Some e) /\
  invocations (snd (retrying_call failed_after overloaded self super_call rnd))
  = seq 0 (S k) /\
  List.length (sleeps (snd (retrying_call failed_after overloaded self super_call rnd))) = k.
Proof.
  intros Hpos Hk Hfail He Hr.
  destruct (call_reaches k Hpos Hk Hfail) as [last' [Hfst [Hinv Hsl]]].
  rewrite Hfst, Hinv, Hsl.
  rewrite (Retry.loop_break _ _ _ _ _ _ k last' e He) by now rewrite Hr.
  cbn [fst snd invocations sleeps List.length]. rewrite seq_S.
  repeat split. lia.
Qed.

(** Under errors that are all retryable, the loop sleeps at least
    [least_sleep] before each attempt but the first. *)
Lemma loop_failing_run_time (latency : nat -> nat) :
  (0 <= base_delay self)%Z -> (forall i, uniform_01_03 (rnd i)) ->
  (forall i, exists e, super_call i = Raise e /\ _is_retryable_error e = true) ->
  forall remaining attempt last,
    (attempt + remaining = max_retries self)%nat ->
    (list_sum (map (least_sleep self) (seq attempt remaining))
     <= run_time latency (snd (loop (S remaining) attempt last)))%nat.
Proof.
  intros Hb Hj Hfail. induction remaining as [|r IH]; intros attempt last Hsum;
    [cbn; lia|].
  destruct (Hfail attempt) as [e [Hc Hr]].
  pose proof (Backoff.delay_bounds self attempt (rnd attempt) Hb (Hj attempt)) as [Hlo _].
  pose proof (Backoff.unjittered_nonneg self attempt Hb) as Hf.
  assert (H0 : (0 <= 11 * unjittered self attempt / 10)%Z) by (apply Z.div_pos; lia).
  assert (Hd : (11 * unjittered self attempt / 10
                <= retry_delay overloaded self rnd e attempt)%Z).
  { unfold retry_delay. destruct (overloaded e); lia. }
  rewrite (Retry.loop_retry _ _ _ _ _ _ attempt last e Hc Hr) by lia.
  cbn [snd run_time seq map].
  change (list_sum (?x :: ?l)) with (x + list_sum l)%nat.
  specialize (IH (S attempt) (Some e)). unfold least_sleep at 1.
  set (q := (11 * unjittered self attempt / 10)%Z) in *. lia.
Qed.
End Prefix.

(** What [timeout_handler] gives for work that lasts [rt] seconds. *)
Lemma handler_within {A} (timeout rt : nat) (o : outcome A) :
  (rt <= timeout)%nat ->
  timeout_handler timeout (Clock.mkWork (Some rt) o) = Some (rt, o).
Proof.
  intros H. unfold timeout_handler, Clock.alive_at.
  cbn [Clock.finishes Clock.produces].
  replace (timeout <? rt)%nat with false by (symmetry; apply Nat.ltb_ge; lia).
  do 2 f_equal. lia.
Qed.

Lemma handler_late {A} (timeout rt : nat) (o : outcome A) :
  (timeout < rt)%nat ->
  timeout_handler timeout (Clock.mkWork (Some rt) o)
  = Some (timeout, Raise (TimeoutError ("Operation timed out after "
                                          ++ str_of_nat timeout ++ " seconds"))).
Proof.
  intros H. unfold timeout_handler, Clock.alive_at.
  cbn [Clock.finishes Clock.produces].
  replace (timeout <? rt)%nat with true by (symmetry; apply Nat.ltb_lt; lia).
  do 2 f_equal. lia.
Qed.

(** The decorated methods, by the outcome and the run time of their body. *)
Lemma generate_decorated_cases {A} self (super_call : nat -> outcome A) latency rnd :
  ((run_time latency (snd (_generate self super_call rnd)) <= Agents.timeout self)%nat ->
   _generate_decorated self super_call latency rnd
   = Some (run_time latency (snd (_generate self super_call rnd)),
           fst (_generate self super_call rnd))) /\
  ((Agents.timeout self < run_time latency (snd (_generate self super_call rnd)))%nat ->
   _generate_decorated self super_call latency rnd
   = Some (Agents.timeout self,
           Raise (TimeoutError ("Operation timed out after "
                                  ++ str_of_nat (Agents.timeout self) ++ " seconds")))).
Proof.
  unfold _generate_decorated. destruct (_generate self super_call rnd) as [o evs].
  cbn [fst snd]. split; intros H; [now apply handler_within | now apply handler_late].
Qed.

Lemma invoke_decorated_cases {A} self (super_call : nat -> outcome A) latency rnd :
  ((run_time latency (snd (invoke self super_call rnd)) <= Agents.timeout self)%nat ->
   invoke_decorated self super_call latency rnd
   = Some (run_time latency (snd (invoke self super_call rnd)),
           fst (invoke self super_call rnd))) /\
  ((Agents.timeout self < run_time latency (snd (invoke self super_call rnd)))%nat ->
   invoke_decorated self super_call latency rnd
   = Some (Agents.timeout self,
           Raise (TimeoutError ("Operation timed out after "
                                  ++ str_of_nat (Agents.timeout self) ++ " seconds")))).
Proof.
  unfold invoke_decorated. destruct (invoke self super_call rnd) as [o evs].
  cbn [fst snd]. split; intros H; [now apply handler_within | now apply handler_late].
Qed.

(** Every error the overload test of [_generate] accepts is retryable. *)
Lemma overloaded_retryable (e : exc) :
  overloaded_generate e = true -> _is_retryable_error e = true.
Proof.
  unfold overloaded_generate, _is_retryable_error, any_in.
  intros H. apply existsb_exists. apply orb_true_iff in H. destruct H as [H|H].
  - exists "overloaded". split; [cbn; tauto | exact H].
  - exists "503". split; [cbn; tauto | exact H].
Qed.

(** The overload tests of [_generate] and [invoke] accept the same errors,
    and every error they accept is one the loop retries. *)
Theorem overload_tests_agree (e : exc) :
  overloaded_invoke e = overloaded_generate e /\
  (overloaded_generate e = true -> _is_retryable_error e = true).
Proof.
  split; [|apply overloaded_retryable].
  unfold overloaded_invoke, overloaded_generate.
  now rewrite Strings.contains_503_lower.
Qed.

(** When attempt [k] succeeds after [k] retryable failures, the thread
    that runs the body of [_generate] (of [invoke]) invokes attempts
    [0..k], sleeps [k] times and invokes nothing after the success.  The
    caller of the decorated method gets the result, when the body ends, if
    the body's run time is within the [timeout] of the model; otherwise it
    gets [TimeoutError] at the timeout. *)
Theorem stops_at_first_success {A} self (super_call : nat -> outcome A) latency rnd k v :
  (0 <= base_delay self)%Z -> (forall i, uniform_01_03 (rnd i)) ->
  (k <= max_retries self)%nat ->
  (forall i, (i < k)%nat ->
     exists e, super_call i = Raise e /\ _is_retryable_error e = true) ->
  super_call k = Return v ->
  (invocations (snd (_generate self super_call rnd)) = seq 0 (S k) /\
   List.length (sleeps (snd (_generate self super_call rnd))) = k /\
   ((run_time latency (snd (_generate self super_call rnd)) <= Agents.timeout self)%nat ->
    _generate_decorated self super_call latency rnd
    = Some (run_time latency (snd (_generate self super_call rnd)), Return v)) /\
   ((Agents.timeout self < run_time latency (snd (_generate self super_call rnd)))%nat ->
    _generate_decorated self super_call latency rnd
    = Some (Agents.timeout self,
            Raise (TimeoutError ("Operation timed out after "
                                   ++ str_of_nat (Agents.timeout self) ++ " seconds"))))) /\
  (invocations (snd (invoke self super_call rnd)) = seq 0 (S k) /\
   List.length (sleeps (snd (invoke self super_call rnd))) = k /\
   ((run_time latency (snd (invoke self super_call rnd)) <= Agents.timeout self)%nat ->
    invoke_decorated self super_call latency rnd
    = Some (run_time latency (snd (invoke self super_call rnd)), Return v)) /\
   ((Agents.timeout self < run_time latency (snd (invoke self super_call rnd)))%nat ->
    invoke_decorated self super_call latency rnd
    = Some (Agents.timeout self,
            Raise (TimeoutError ("Operation timed out after "
                                   ++ str_of_nat (Agents.timeout self) ++ " seconds"))))).
Proof.
  intros Hb Hr Hk Hfail Hv.
  pose proof (Retry.retry_delay_nonneg overloaded_generate self rnd Hb Hr) as Hg.
  pose proof (Retry.retry_delay_nonneg overloaded_invoke self rnd Hb Hr) as Hi.
  split.
  - destruct (call_first_success "Failed after " overloaded_generate self super_call
                rnd k v Hg Hk Hfail Hv) as [H1 [H2 H3]].
    destruct (generate_decorated_cases self super_call latency rnd) as [Hin Hlate].
    fold (@_generate A) in H1, H2, H3. rewrite H1 in Hin. auto.
  - destruct (call_first_success "Invoke failed after " overloaded_invoke self super_call
                rnd k v Hi Hk Hfail Hv) as [H1 [H2 H3]].
    destruct (invoke_decorated_cases self super_call latency rnd) as [Hin Hlate].
    fold (@invoke A) in H1, H2, H3. rewrite H1 in Hin. auto.
Qed.

Lemma stops_at_first_success_witness :
  _generate_decorated model_config
    (fun i => if (i <? 2)%nat then Raise (Exception "503 overloaded")
              else Return (Obj "text"))
    (fun _ => 0%nat) (fun _ => 1 # 5)
  = Some (run_time (fun _ => 0%nat)
            (snd (_generate model_config
                    (fun i => if (i <? 2)%nat then Raise (Exception "503 overloaded")
                              else Return (Obj "text"))
                    (fun _ => 1 # 5))),
          Return (Obj "text")).
Proof.
  refine (proj1 (proj2 (proj2 (proj1 (stops_at_first_success model_config
            (fun i => if (i <? 2)%nat then Raise (Exception "503 overloaded")
                      else Return (Obj "text"))
            (fun _ => 0%nat) (fun _ => 1 # 5) 2 (Obj "text") _ _ _ _ _)))) _).
  - simpl. lia.
  - intros _. split; unfold Qle; simpl; lia.
  - simpl. lia.
  - intros i Hi. exists (Exception "503 overloaded").
    destruct i as [|[|i]]; [split; reflexivity | split; reflexivity | lia].
  - reflexivity.
  - apply Nat.leb_le. vm_compute. reflexivity.
Defined.

(** When attempt [k] fails with an error that is not retryable, after [k]
    retryable failures, the thread that runs the body of [_generate] (of
    [invoke]) invokes attempts [0..k] and none after, whatever
    [max_retries] allows.  The caller of the decorated method gets the
    error of the loop, when the body ends, if the body's run time is within
    the [timeout] of the model; otherwise it gets [TimeoutError] at the
    timeout. *)
Theorem stops_at_first_fatal {A} self (super_call : nat -> outcome A) latency rnd k e :
  (0 <= base_delay self)%Z -> (forall i, uniform_01_03 (rnd i)) ->
  (k <= max_retries self)%nat ->
  (forall i, (i < k)%nat ->
     exists e, super_call i = Raise e /\ _is_retryable_error e = true) ->
  super_call k = Raise e -> _is_retryable_error e = false ->
  (invocations (snd (_generate self super_call rnd)) = seq 0 (S k) /\
   ((run_time latency (snd (_generate self super_call rnd)) <= Agents.timeout self)%nat ->
    _generate_decorated self super_call latency rnd
    = Some (run_time latency (snd (_generate self super_call rnd)),
            Raise (Exception ("Failed after " ++ str_of_nat (max_retries self + 1)
                                ++ " attempts. Last error: " ++ str_exc e)))) /\
   ((Agents.timeout self < run_time latency (snd (_generate self super_call rnd)))%nat ->
    _generate_decorated self super_call latency rnd
    = Some (Agents.timeout self,
            Raise (TimeoutError ("Operation timed out after "
                                   ++ str_of_nat (Agents.timeout self) ++ " seconds"))))) /\
  (invocations (snd (invoke self super_call rnd)) = seq 0 (S k) /\
   ((run_time latency (snd (invoke self super_call rnd)) <= Agents.timeout self)%nat ->
    invoke_decorated self super_call latency rnd
    = Some (run_time latency (snd (invoke self super_call rnd)),
            Raise (Exception ("Invoke failed after " ++ str_of_nat (max_retries self + 1)
                                ++ " attempts. Last error: " ++ str_exc e)))) /\
   ((Agents.timeout self < run_time latency (snd (invoke self super_call rnd)))%nat ->
    invoke_decorated self super_call latency rnd
    = Some (Agents.timeout self,
            Raise (TimeoutError ("Operation timed out after "
                                   ++ str_of_nat (Agents.timeout self) ++ " seconds"))))).
Proof.
  intros Hb Hr Hk Hfail He Hne.
  pose proof (Retry.retry_delay_nonneg overloaded_generate self rnd Hb Hr) as Hg.
  pose proof (Retry.retry_delay_nonneg overloaded_invoke self rnd Hb Hr) as Hi.
  split.
  - destruct (call_first_fatal "Failed after " overloaded_generate self super_call
                rnd k e Hg Hk Hfail He Hne) as [H1 [H2 _]].
    destruct (generate_decorated_cases self super_call latency rnd) as [Hin Hlate].
    fold (@_generate A) in H1, H2. rewrite H1 in Hin. auto.
  - destruct (call_first_fatal "Invoke failed after " overloaded_invoke self super_call
                rnd k e Hi Hk Hfail He Hne) as [H1 [H2 _]].
    destruct (invoke_decorated_cases self super_call latency rnd) as [Hin Hlate].
    fold (@invoke A) in H1, H2. rewrite H1 in Hin. auto.
Qed.

Lemma stops_at_first_fatal_witness :
  _generate_decorated model_config
    (fun i => if (i <? 1)%nat then Raise (Exception "429 quota")
              else @Raise value (Exception "Invalid API key"))
    (fun _ => 0%nat) (fun _ => 1 # 5)
  = Some (run_time (fun _ => 0%nat)
            (snd (_generate model_config
                    (fun i => if (i <? 1)%nat then Raise (Exception "429 quota")
                              else @Raise value (Exception "Invalid API key"))
                    (fun _ => 1 # 5))),
          Raise (Exception ("Failed after " ++ str_of_nat (max_retries model_config + 1)
                              ++ " attempts. Last error: "
                              ++ str_exc (Exception "Invalid API key")))).
Proof.
  refine (proj1 (proj2 (proj1 (stops_at_first_fatal model_config
            (fun i => if (i <? 1)%nat then Raise (Exception "429 quota")
                      else @Raise value (Exception "Invalid API key"))
            (fun _ => 0%nat) (fun _ => 1 # 5) 1 (Exception "Invalid API key")
            _ _ _ _ _ _))) _).
  - simpl. lia.
  - intros _. split; unfold Qle; simpl; lia.
  - simpl. lia.
  - intros i Hi. exists (Exception "429 quota").
    destruct i as [|i]; [split; reflexivity | lia].
  - reflexivity.
  - reflexivity.
  - apply Nat.leb_le. vm_compute. reflexivity.
Defined.

(** When every call fails with an overload and the [timeout] of the model
    is below 60 seconds per retry, the caller of the decorated [_generate]
    gets [TimeoutError] at the timeout, never the error of the loop. *)
Theorem permanent_overload_times_out {A} self (super_call : nat -> outcome A)
    latency rnd :
  (forall i, exists e, super_call i = Raise e /\ overloaded_generate e = true) ->
  (Agents.timeout self < 60 * max_retries self)%nat ->
  _generate_decorated self super_call latency rnd
  = Some (Agents.timeout self,
          Raise (TimeoutError ("Operation timed out after "
                                 ++ str_of_nat (Agents.timeout self) ++ " seconds"))).
Proof.
  intros Hfail Hlt.
  assert (Hrun : (60 * max_retries self
                  <= run_time latency (snd (_generate self super_call rnd)))%nat).
  { unfold _generate, retrying_call. rewrite Nat.add_1_r.
    apply loop_overloaded_run_time; [|reflexivity].
    intros i. destruct (Hfail i) as [e [Hc Ho]].
    exists e. auto using overloaded_retryable. }
  unfold _generate_decorated.
  destruct (_generate self super_call rnd) as [o evs]. cbn [snd] in Hrun.
  unfold timeout_handler, Clock.alive_at. cbn [Clock.finishes Clock.produces].
  assert (Hb : (Agents.timeout self <? run_time latency evs)%nat = true)
    by (apply Nat.ltb_lt; lia).
  rewrite Hb. do 2 f_equal. lia.
Qed.

Lemma permanent_overload_times_out_witness :
  _generate_decorated model_config
    (fun _ => @Raise value (Exception "503 overloaded")) (fun _ => 2%nat) (fun _ => 1 # 5)
  = Some (Agents.timeout model_config,
          Raise (TimeoutError ("Operation timed out after "
                                 ++ str_of_nat (Agents.timeout model_config)
                                 ++ " seconds"))).
Proof.
  apply (permanent_overload_times_out model_config
           (fun _ => @Raise value (Exception "503 overloaded")) (fun _ => 2%nat)
           (fun _ => 1 # 5)).
  - intros _. exists (Exception "503 overloaded"). split; reflexivity.
  - simpl. lia.
Defined.

(** When every attempt fails with a retryable error and the body of
    [_generate] ends within the [timeout] of the model, the caller of the
    decorated method gets an exception that carries the text of the last
    error: every substring test that holds of the lower-cased last error
    holds of the lower-cased message raised. *)
Theorem exhausted_retries_keep_the_cause {A} self (super_call : nat -> outcome A)
    latency rnd :
  (0 <= base_delay self)%Z -> (forall i, uniform_01_03 (rnd i)) ->
  (forall i, exists e, super_call i = Raise e /\ _is_retryable_error e = true) ->
  (run_time latency (snd (_generate self super_call rnd)) <= Agents.timeout self)%nat ->
  exists e m,
    super_call (max_retries self) = Raise e /\
    _generate_decorated self super_call latency rnd
    = Some (run_time latency (snd (_generate self super_call rnd)),
            Raise (Exception m)) /\
    forall needle, contains needle (lower (str_exc e)) = true ->
                   contains needle (lower m) = true.
Proof.
  intros Hb Hr Hfail Hrt.
  destruct (generate_decorated_cases self super_call latency rnd) as [Hin _].
  rewrite (Hin Hrt). clear Hin Hrt.
  unfold _generate, retrying_call. rewrite Nat.add_1_r.
  destruct (Retry.loop_always_failing "Failed after " overloaded_generate self
              super_call rnd Hfail (Retry.retry_delay_nonneg _ self rnd Hb Hr)
              (max_retries self) 0%nat None eq_refl) as [_ [e [Hc Hout]]].
  exists e. eexists. split; [exact Hc|]. split.
  - rewrite Hout, Retry.all_retries_failed_raises. reflexivity.
  - intros needle Hn.
    rewrite !Strings.lower_app.
    now do 3 apply Strings.contains_app_r.
Qed.

Lemma exhausted_retries_keep_the_cause_witness :
  exists e m,
    (fun _ => @Raise value (Exception "429 quota"))
      (max_retries {| max_retries := 2; base_delay := 1; timeout := 180 |})
    = Raise e /\
    _generate_decorated {| max_retries := 2; base_delay := 1; timeout := 180 |}
      (fun _ => @Raise value (Exception "429 quota")) (fun _ => 1%nat) (fun _ => 1 # 5)
    = Some (run_time (fun _ => 1%nat)
              (snd (_generate {| max_retries := 2; base_delay := 1; timeout := 180 |}
                      (fun _ => @Raise value (Exception "429 quota")) (fun _ => 1 # 5))),
            Raise (Exception m)) /\
    forall needle, contains needle (lower (str_exc e)) = true ->
                   contains needle (lower m) = true.
Proof.
  apply (exhausted_retries_keep_the_cause
           {| max_retries := 2; base_delay := 1; timeout := 180 |}
           (fun _ => @Raise value (Exception "429 quota")) (fun _ => 1%nat)
           (fun _ => 1 # 5)).
  - simpl. lia.
  - intros _. split; unfold Qle; simpl; lia.
  - intros _. exists (Exception "429 quota"). split; reflexivity.
  - apply Nat.leb_le. vm_compute. reflexivity.
Defined.

(** When every call fails with a retryable error and the [timeout] of the
    model is below the least the retries sleep (the shipped configuration:
    180 against 11 + 22 + 44 + 88 + 176), the caller of the decorated
    [_generate] gets [TimeoutError] at the timeout and never the error of
    the loop. *)
Theorem retries_outlast_the_timeout {A} self (super_call : nat -> outcome A)
    latency rnd :
  (0 <= base_delay self)%Z -> (forall i, uniform_01_03 (rnd i)) ->
  (forall i, exists e, super_call i = Raise e /\ _is_retryable_error e = true) ->
  (Agents.timeout self < least_total_sleep self)%nat ->
  _generate_decorated self super_call latency rnd
  = Some (Agents.timeout self,
          Raise (TimeoutError ("Operation timed out after "
                                 ++ str_of_nat (Agents.timeout self) ++ " seconds"))).
Proof.
  intros Hb Hr Hfail Hlt.
  apply generate_decorated_cases.
  eapply Nat.lt_le_trans; [exact Hlt|].
  unfold _generate, retrying_call, least_total_sleep. rewrite Nat.add_1_r.
  apply loop_failing_run_time; auto.
Qed.

Lemma retries_outlast_the_timeout_witness :
  _generate_decorated model_config
    (fun _ => @Raise value (Exception "429 quota")) (fun _ => 0%nat) (fun _ => 1 # 10)
  = Some (Agents.timeout model_config,
          Raise (TimeoutError ("Operation timed out after "
                                 ++ str_of_nat (Agents.timeout model_config)
                                 ++ " seconds"))).
Proof.
  apply (retries_outlast_the_timeout model_config
           (fun _ => @Raise value (Exception "429 quota")) (fun _ => 0%nat)
           (fun _ => 1 # 10)).
  - simpl. lia.
  - intros _. split; unfold Qle; simpl; lia.
  - intros _. exists (Exception "429 quota"). split; reflexivity.
  - apply Nat.ltb_lt. vm_compute. reflexivity.
Defined.

End RetryMore.

(** ** More on bounded execution *)

Module BoundedMore.
Import Py Agents Crew.
Local Open Scope nat_scope.

(** [timeout_handler]: work still running at the timeout gives
    [TimeoutError] at the timeout; work that ended by then gives its own
    result or exception, when it ended. *)
Theorem timeout_handler_contract {A} (timeout : nat) (w : Clock.work A) :
  (Clock.alive_at w timeout = true ->
   timeout_handler timeout w
   = Some (timeout,
           Raise (TimeoutError ("Operation timed out after "
                                  ++ str_of_nat timeout ++ " seconds")))) /\
  (forall t, Clock.finishes w = Some t -> t <= timeout ->
             timeout_handler timeout w = Some (t, Clock.produces w)).
Proof.
  unfold timeout_handler, Clock.alive_at. split.
  - intros Ha. rewrite Ha. do 2 f_equal.
    destruct (Clock.finishes w) as [t|]; [|reflexivity].
    apply Nat.ltb_lt in Ha. lia.
  - intros t Hf Hle. rewrite Hf.
    apply Nat.ltb_ge in Hle. rewrite Hle. apply Nat.ltb_ge in Hle.
    do 2 f_equal. lia.
Qed.

End BoundedMore.

(** ** Building the model *)

Module Models.
Import Py Agents.
Local Open Scope nat_scope.

Lemma try_model_configs_result test configs : forall i len,
  configs <> [] -> i + List.length configs = len ->
  (exists pre c post v,
      configs = (pre ++ c :: post)%list /\
      Forall (fun c' => exists e, test c' = Raise e) pre /\
      test c = Return v /\
      try_model_configs test configs i len = Return c) \/
  (exists e,
      Forall (fun c' => exists e', test c' = Raise e') configs /\
      test (List.last configs model_config) = Raise e /\
      try_model_configs test configs i len
      = Raise (Exception ("All model configurations failed. Last error: "
                            ++ str_exc e))).
Proof.
  induction configs as [|c rest IH]; intros i len Hne Hlen; [congruence|].
  cbn [try_model_configs].
  destruct (test c) as [v|e] eqn:Hc.
  - left. exists [], c, rest, v. repeat split; [constructor | exact Hc].
  - destruct rest as [|c' rest'].
    + right. exists e. cbn [List.length] in Hlen.
      replace (i =? len - 1) with true by (symmetry; apply Nat.eqb_eq; lia).
      repeat split; [repeat constructor; eauto | exact Hc].
    + cbn [List.length] in Hlen.
      replace (i =? len - 1) with false by (symmetry; apply Nat.eqb_neq; lia).
      destruct (IH (S i) len) as [H|H];
        [discriminate | cbn [List.length]; lia | |];
        [destruct H as (pre & d & post & v & Heq & Hpre & Hd & Hres)
        |destruct H as (e' & Hall & Hlast & Hres)].
      * left. exists (c :: pre), d, post, v. repeat split; try assumption.
        -- cbn. now rewrite Heq.
        -- constructor; eauto.
      * right. exists e'. repeat split; try assumption.
        constructor; eauto.
Qed.

(** [create_llm_with_robust_handling]'s loop over a non-empty list of
    configurations returns the first configuration whose test call
    succeeds, all before it having failed; when none succeeds it raises
    with the error of the last one.  The final
    "Failed to initialize any LLM configuration" is never raised. *)
Theorem first_working_config (test : RobustGeminiLLM -> outcome value)
    (configs : list RobustGeminiLLM) :
  configs <> [] ->
  (exists pre c post v,
      configs = (pre ++ c :: post)%list /\
      Forall (fun c' => exists e, test c' = Raise e) pre /\
      test c = Return v /\
      try_model_configs test configs 0 (List.length configs) = Return c) \/
  (exists e,
      Forall (fun c' => exists e', test c' = Raise e') configs /\
      test (List.last configs model_config) = Raise e /\
      try_model_configs test configs 0 (List.length configs)
      = Raise (Exception ("All model configurations failed. Last error: "
                            ++ str_exc e))).
Proof.
  intros Hne. apply try_model_configs_result; [exact Hne | reflexivity].
Qed.

Lemma first_working_config_witness :
  (exists pre c post v,
      model_configs = (pre ++ c :: post)%list /\
      Forall (fun c' => exists e, (fun _ => Return (Obj "OK")) c' = Raise e) pre /\
      (fun _ => Return (Obj "OK")) c = Return v /\
      create_llm_with_robust_handling (fun _ => Return (Obj "OK")) = Return c) \/
  (exists e,
      Forall (fun c' => exists e', (fun _ => Return (Obj "OK")) c' = Raise e')
             model_configs /\
      (fun _ => Return (Obj "OK")) (List.last model_configs model_config) = Raise e /\
      create_llm_with_robust_handling (fun _ => Return (Obj "OK"))
      = Raise (Exception ("All model configurations failed. Last error: "
                            ++ str_exc e))).
Proof.
  apply (first_working_config (fun _ => Return (Obj "OK")) model_configs).
  discriminate.
Defined.

End Models.

(** ** config.py *)

Module ConfigProps.
Import Py.

(** [validate_api_keys] lists a key exactly when its value is missing or
    empty, and returns the empty list exactly when both keys are set. *)
Theorem validate_api_keys_reports_missing (google serper : option string) :
  (In "GOOGLE_API_KEY" (Config.validate_api_keys google serper)
   <-> truthy google = false) /\
  (In "SERPER_API_KEY" (Config.validate_api_keys google serper)
   <-> truthy serper = false) /\
  (Config.validate_api_keys google serper = []
   <-> truthy google = true /\ truthy serper = true).
Proof.
  unfold Config.validate_api_keys.
  destruct (truthy google), (truthy serper); cbn;
    repeat split; intros; try tauto; try discriminate;
    repeat match goal with
           | H : _ \/ _ |- _ => destruct H
           | H : _ /\ _ |- _ => destruct H
           | H : False |- _ => destruct H
           end; try discriminate; auto.
Qed.

(** [get_retry_delay] starts at 60 and doubles with every attempt. *)
Theorem get_retry_delay_doubles (attempt : nat) :
  Config.get_retry_delay 0 = 60%Z /\
  Config.get_retry_delay (S attempt) = (2 * Config.get_retry_delay attempt)%Z /\
  (60 <= Config.get_retry_delay attempt)%Z.
Proof.
  unfold Config.get_retry_delay, Config.EXPONENTIAL_BACKOFF, Config.BASE_RETRY_DELAY.
  split; [reflexivity|]. split.
  - rewrite Nat2Z.inj_succ, Z.pow_succ_r by lia. ring.
  - assert (0 < 2 ^ Z.of_nat attempt)%Z by (apply Z.pow_pos_nonneg; lia). lia.
Qed.

End ConfigProps.

(** ** tasks.py *)

Module TaskSets.
Import Py Agents Tasks.
Local Open Scope nat_scope.

(** Both task lists hold three tasks, given in this order to the analyst,
    the expert and the consultant, and in both the context of every task
    is made of tasks that come before it. *)
Theorem task_sets_are_ordered (product_name : string) :
  (map agent (create_tasks product_name)
   = [market_research_analyst; technology_expert; business_consultant] /\
   contexts_come_first (create_tasks product_name)) /\
  (map agent (create_emergency_tasks product_name)
   = [market_research_analyst; technology_expert; business_consultant] /\
   contexts_come_first (create_emergency_tasks product_name)).
Proof.
  split; (split; [reflexivity|]);
    intros i t c Hi Hc;
    (destruct i as [|[|[|i]]];
     [ | | | destruct i; discriminate ];
     cbn [nth_error create_tasks create_emergency_tasks] in Hi;
     inversion Hi; subst t; cbn [context In] in Hc;
     [ destruct Hc | destruct Hc | ];
     destruct Hc as [<- | [<- | []]];
     [ exists 0 | exists 1 ]; (split; [lia | reflexivity])).
Qed.

(** Every task description of both lists names the product. *)
Theorem descriptions_name_the_product (product_name : string) :
  Forall (fun t => contains product_name (description t) = true)
         (create_tasks product_name ++ create_emergency_tasks product_name).
Proof.
  unfold create_tasks, create_emergency_tasks. cbn [app].
  repeat constructor; cbn [description]; apply Strings.contains_app_mid.
Qed.

End TaskSets.

(** ** More on the strategy ladder *)

Module LadderMore.
Import Py Agents Tasks Crew.
Local Open Scope nat_scope.

Lemma get_current_strategy_nth (h : AdaptiveCrewHandler) :
  get_current_strategy h = nth_error (strategies h) (current_strategy h).
Proof.
  unfold get_current_strategy.
  destruct (List.length (strategies h) <=? current_strategy h) eqn:E; [|reflexivity].
  symmetry. apply nth_error_None. now apply Nat.leb_le.
Qed.

Lemma advance_n (h : AdaptiveCrewHandler) (k : nat) :
  strategies (Nat.iter k (fun h => fst (next_strategy h)) h) = strategies h /\
  current_strategy (Nat.iter k (fun h => fst (next_strategy h)) h)
  = current_strategy h + k.
Proof.
  induction k as [|k [IHs IHc]]; [split; [reflexivity|cbn; lia]|].
  rewrite Nat.iter_succ.
  set (h' := Nat.iter k _ h) in *.
  unfold next_strategy. cbn [fst strategies current_strategy].
  split; [exact IHs|lia].
Qed.

(** The ladder is walked strictly forward: after [k] calls of
    [next_strategy] the current strategy is the entry [k] places further,
    [None] once the list is passed and for ever after; and [next_strategy]
    returns the strategy that is current after it. *)
Theorem ladder_walks_forward (h : AdaptiveCrewHandler) (k : nat) :
  get_current_strategy (Nat.iter k (fun h => fst (next_strategy h)) h)
  = nth_error (strategies h) (current_strategy h + k) /\
  snd (next_strategy h) = get_current_strategy (fst (next_strategy h)) /\
  (forall k', get_current_strategy (Nat.iter k (fun h => fst (next_strategy h)) h) = None ->
              k <= k' ->
              get_current_strategy (Nat.iter k' (fun h => fst (next_strategy h)) h) = None).
Proof.
  assert (Hk : forall n, get_current_strategy (Nat.iter n (fun h => fst (next_strategy h)) h)
                         = nth_error (strategies h) (current_strategy h + n)).
  { intros n. rewrite get_current_strategy_nth.
    destruct (advance_n h n) as [-> ->]. reflexivity. }
  split; [apply Hk|]. split; [reflexivity|].
  intros k' Hnone Hle. rewrite Hk in *.
  apply nth_error_None in Hnone. apply nth_error_None. lia.
Qed.

(** Two strategies that are not the emergency one get the same crew but for
    the execution time: the same agents, the full task list and the same
    verbosity.  The quick strategy runs the tasks of the full one. *)
Theorem quick_runs_the_full_tasks (h : AdaptiveCrewHandler) (s1 s2 : strategy) :
  String.eqb (tasks s1) "emergency" = false ->
  String.eqb (tasks s2) "emergency" = false ->
  crew_tasks (create_crew_for_strategy h s1) = create_tasks (product_name h) /\
  crew_tasks (create_crew_for_strategy h s1) = crew_tasks (create_crew_for_strategy h s2) /\
  agents (create_crew_for_strategy h s1) = agents (create_crew_for_strategy h s2) /\
  crew_verbose (create_crew_for_strategy h s1) = crew_verbose (create_crew_for_strategy h s2) /\
  crew_max_execution_time (create_crew_for_strategy h s1) = timeout s1.
Proof.
  intros H1 H2. unfold create_crew_for_strategy.
  cbn [crew_tasks agents crew_verbose crew_max_execution_time].
  rewrite H1, H2. destruct (String.eqb (tasks s1) "quick"), (String.eqb (tasks s2) "quick");
    repeat split.
Qed.

Lemma quick_runs_the_full_tasks_witness :
  crew_tasks (create_crew_for_strategy (new_handler "Widget")
                {| name := "Quick Analysis"; timeout := 300; tasks := "quick" |})
  = create_tasks (product_name (new_handler "Widget")).
Proof.
  refine (proj1 (quick_runs_the_full_tasks (new_handler "Widget")
            {| name := "Quick Analysis"; timeout := 300; tasks := "quick" |}
            {| name := "Full Analysis"; timeout := 600; tasks := "full" |} _ _));
    reflexivity.
Defined.

Section Runs.
Variable kickoff : nat -> Crew -> Clock.work value.
Variable max_attempts : nat.

Local Abbreviation run := (attempts kickoff max_attempts).

(** How a run that ends can have ended after its first iteration. *)
Lemma run_cases remaining attempt handler r steps :
  run (S remaining) attempt handler = Some (r, steps) ->
  (get_current_strategy handler = None /\ steps = []) \/
  (exists s, get_current_strategy handler = Some s /\
             steps = [Executed attempt (name s)]) \/
  (exists s handler' did more,
      get_current_strategy handler = Some s /\
      attempt < max_attempts - 1 /\
      run remaining (S attempt) handler' = Some (r, more) /\
      steps = (Executed attempt (name s) :: did ++ more)%list /\
      ((handler' = handler /\ exists w, did = [Waited w]) \/
       (handler' = fst (next_strategy handler) /\ did = [Advanced]))).
Proof.
  intros H.
  destruct (get_current_strategy handler) as [s|] eqn:Hs.
  - right.
    rewrite (Ladder.attempt_unfold kickoff max_attempts remaining attempt handler s Hs) in H.
    assert (Hgo : forall h did,
               (h = handler /\ exists w, did = [Waited w]) \/
               (h = fst (next_strategy handler) /\ did = [Advanced]) ->
               attempt < max_attempts - 1 ->
               goes_on kickoff max_attempts remaining attempt (name s) h did = Some (r, steps) ->
               exists s0 handler' did0 more,
                 Some s = Some s0 /\ attempt < max_attempts - 1 /\
                 run remaining (S attempt) handler' = Some (r, more) /\
                 steps = (Executed attempt (name s0) :: did0 ++ more)%list /\
                 ((handler' = handler /\ exists w, did0 = [Waited w]) \/
                  (handler' = fst (next_strategy handler) /\ did0 = [Advanced]))).
    { intros h did Hd Hlt Hg. unfold goes_on in Hg.
      destruct (run remaining (S attempt) h) as [[r' more]|] eqn:E; [|discriminate].
      inversion Hg; subst. exists s, h, did, more. repeat split; assumption. }
    destruct (execute_with_timeout _ _) as [[t [v|[m|msg]]]|]; [| | |discriminate].
    + left. exists s. inversion H. split; reflexivity.
    + destruct (attempt <? max_attempts - 1) eqn:E.
      * right. apply Nat.ltb_lt in E. eapply Hgo; eauto.
      * left. exists s. inversion H. split; reflexivity.
    + destruct (attempt <? max_attempts - 1) eqn:E.
      * right. apply Nat.ltb_lt in E.
        destruct (contains "overloaded" (lower msg) || contains "503" (lower msg));
          [|destruct (any_in ["quota"; "rate limit"; "429"] (lower msg))].
        -- apply (Hgo handler [Waited ((attempt + 1) * 60)]); eauto.
        -- apply (Hgo handler [Waited ((attempt + 1) * 90)]); eauto.
        -- apply (Hgo (fst (next_strategy handler)) [Advanced]); auto.
      * left. exists s.
        destruct (contains "overloaded" (lower msg) || contains "503" (lower msg));
          [|destruct (any_in ["quota"; "rate limit"; "429"] (lower msg))];
          inversion H; split; reflexivity.
  - left. rewrite (Ladder.attempt_unfold_none kickoff max_attempts remaining attempt handler Hs) in H.
    inversion H. split; reflexivity.
Qed.

Lemma executed_cons attempt n did more :
  (exists w, did = [Waited w]) \/ did = [Advanced] ->
  executed (Executed attempt n :: did ++ more) = (attempt, n) :: executed more.
Proof. intros [[w ->]| ->]; reflexivity. Qed.

(** The attempts executed are consecutive and no more than the iterations
    left. *)
Lemma run_attempt_indices remaining : forall attempt handler r steps,
  run remaining attempt handler = Some (r, steps) ->
  exists k, k <= remaining /\ map fst (executed steps) = seq attempt k.
Proof.
  induction remaining as [|rem IH]; intros attempt handler r steps H.
  - inversion H. exists 0. split; [lia|reflexivity].
  - destruct (run_cases rem attempt handler r steps H)
      as [[_ ->]|[[s [_ ->]]|(s & h' & did & more & _ & _ & Hrun & -> & Hd)]].
    + exists 0. split; [lia|reflexivity].
    + exists 1. split; [lia|reflexivity].
    + destruct (IH _ _ _ _ Hrun) as [k [Hk Hseq]].
      exists (S k). split; [lia|].
      rewrite executed_cons by (destruct Hd as [[_ ?]|[_ ?]]; auto).
      cbn. now rewrite Hseq.
Qed.

(** Each strategy executed is the ladder entry at its position. *)
Lemma run_follows_ladder remaining : forall attempt handler r steps,
  run remaining attempt handler = Some (r, steps) ->
  map (fun e => Some (snd e)) (executed steps)
  = map (fun i => option_map name (nth_error (strategies handler) i))
        (positions steps (current_strategy handler)).
Proof.
  induction remaining as [|rem IH]; intros attempt handler r steps H.
  - inversion H. reflexivity.
  - destruct (run_cases rem attempt handler r steps H)
      as [[_ ->]|[[s [Hs ->]]|(s & h' & did & more & Hs & _ & Hrun & -> & Hd)]].
    + reflexivity.
    + cbn. rewrite <- get_current_strategy_nth, Hs. reflexivity.
    + specialize (IH _ _ _ _ Hrun).
      destruct Hd as [[-> [w ->]]|[-> ->]].
      * cbn. rewrite <- get_current_strategy_nth, Hs. cbn. now rewrite IH.
      * cbn. rewrite <- get_current_strategy_nth, Hs. cbn. rewrite IH.
        cbn [next_strategy fst strategies current_strategy].
        now rewrite Nat.add_1_r.
Qed.

(** Positions never go down. *)
Lemma positions_from (steps : list step) : forall i,
  Forall (fun p => i <= p) (positions steps i) /\
  StronglySorted le (positions steps i).
Proof.
  induction steps as [|[a n|w|] steps IH]; intros i; cbn [positions].
  - split; constructor.
  - destruct (IH i) as [Hall Hs]. split; constructor; auto.
  - apply IH.
  - destruct (IH (S i)) as [Hall Hs]. split; [|exact Hs].
    eapply Forall_impl; [|exact Hall]. cbn. intros; lia.
Qed.

(** The run when every execution fails with an overload. *)
Lemma overload_run handler s :
  get_current_strategy handler = Some s ->
  (forall i crew, exists t msg,
      execute_with_timeout (kickoff i crew) (crew_max_execution_time crew)
      = Some (t, Raise (Exception msg)) /\
      contains "overloaded" (lower msg) || contains "503" (lower msg) = true) ->
  forall r attempt, attempt + S r = max_attempts ->
    exists steps,
      run (S r) attempt handler
      = Some (Str "❌ Service is overloaded and all retry attempts failed. Please try again in 10-15 minutes.",
              steps) /\
      executed steps = map (fun a => (a, name s)) (seq attempt (S r)) /\
      waits steps = map (fun a => (a + 1) * 60) (seq attempt r) /\
      Forall (fun st => st <> Advanced) steps.
Proof.
  intros Hs Hover. induction r as [|r IH]; intros attempt Hsum;
    rewrite (Ladder.attempt_unfold kickoff max_attempts _ attempt handler s Hs);
    destruct (Hover attempt (create_crew_for_strategy handler s)) as [t [msg [Hx Ho]]];
    change (crew_max_execution_time (create_crew_for_strategy handler s))
      with (timeout s) in Hx;
    rewrite Hx, Ho.
  - replace (attempt <? max_attempts - 1) with false
      by (symmetry; apply Nat.ltb_ge; lia).
    eexists. split; [reflexivity|]. repeat split. repeat constructor. discriminate.
  - replace (attempt <? max_attempts - 1) with true
      by (symmetry; apply Nat.ltb_lt; lia).
    destruct (IH (S attempt)) as [steps [Hrun [Hex [Hw Hna]]]]; [lia|].
    unfold goes_on. rewrite Hrun. eexists. split; [reflexivity|].
    cbn [executed waits app]. rewrite Hex, Hw. repeat split.
    repeat constructor; try discriminate. exact Hna.
Qed.
End Runs.

(** A run of [create_crewai_setup] that ends has executed attempts
    [0, 1, ..., k - 1] for some [k <= max_attempts]: the cap on attempts
    holds whatever the ladder still offers. *)
Theorem attempts_are_capped kickoff product_name max_attempts r steps :
  create_crewai_setup kickoff product_name max_attempts = Some (r, steps) ->
  exists k, k <= max_attempts /\ map fst (executed steps) = seq 0 k.
Proof. apply run_attempt_indices. Qed.

Lemma attempts_are_capped_witness :
  exists k, k <= 3 /\
    map fst (executed [Executed 0 "Full Analysis"; Waited 90;
                       Executed 1 "Full Analysis"; Advanced;
                       Executed 2 "Quick Analysis"])
    = seq 0 k.
Proof.
  apply (attempts_are_capped
           (fun i _ => Clock.mkWork (Some 7)
                         (Raise (Exception (if i =? 0 then "429 quota" else "boom"))))
           "Widget" 3
           (Str ("❌ Analysis failed with error: " ++ "boom"))
           [Executed 0 "Full Analysis"; Waited 90;
            Executed 1 "Full Analysis"; Advanced;
            Executed 2 "Quick Analysis"]).
  vm_compute. reflexivity.
Defined.

(** In a run of [create_crewai_setup] that ends, each strategy executed is
    the ladder entry whose index is the number of advances made before it;
    the indices never go down, so strategies are executed in ladder order
    and none is come back to. *)
Theorem strategies_follow_the_ladder kickoff product_name max_attempts r steps :
  create_crewai_setup kickoff product_name max_attempts = Some (r, steps) ->
  map (fun e => Some (snd e)) (executed steps)
  = map (fun i => option_map name (nth_error (strategies (new_handler product_name)) i))
        (positions steps 0) /\
  StronglySorted le (positions steps 0).
Proof.
  intros H. split.
  - apply (run_follows_ladder kickoff max_attempts _ _ _ _ _ H).
  - apply positions_from.
Qed.

Lemma strategies_follow_the_ladder_witness :
  map (fun e => Some (snd e))
      (executed [Executed 0 "Full Analysis"; Waited 90;
                 Executed 1 "Full Analysis"; Advanced;
                 Executed 2 "Quick Analysis"])
  = map (fun i => option_map name (nth_error (strategies (new_handler "Widget")) i))
        (positions [Executed 0 "Full Analysis"; Waited 90;
                    Executed 1 "Full Analysis"; Advanced;
                    Executed 2 "Quick Analysis"] 0) /\
  StronglySorted le (positions [Executed 0 "Full Analysis"; Waited 90;
                                Executed 1 "Full Analysis"; Advanced;
                                Executed 2 "Quick Analysis"] 0).
Proof.
  apply (strategies_follow_the_ladder
           (fun i _ => Clock.mkWork (Some 7)
                         (Raise (Exception (if i =? 0 then "429 quota" else "boom"))))
           "Widget" 3
           (Str ("❌ Analysis failed with error: " ++ "boom"))).
  vm_compute. reflexivity.
Defined.

(** When every execution fails with an overload, [create_crewai_setup]
    executes the first strategy at every one of its [max_attempts]
    attempts, waiting 60, 120, ... seconds in between; it never advances,
    so the quick and emergency strategies are never tried, and it returns
    the overload failure string. *)
Theorem permanent_overload_stays_on_full kickoff product_name max_attempts :
  0 < max_attempts ->
  (forall i crew, exists t msg,
      execute_with_timeout (kickoff i crew) (crew_max_execution_time crew)
      = Some (t, Raise (Exception msg)) /\
      contains "overloaded" (lower msg) || contains "503" (lower msg) = true) ->
  exists steps,
    create_crewai_setup kickoff product_name max_attempts
    = Some (Str "❌ Service is overloaded and all retry attempts failed. Please try again in 10-15 minutes.",
            steps) /\
    executed steps = map (fun a => (a, "Full Analysis")) (seq 0 max_attempts) /\
    waits steps = map (fun a => (a + 1) * 60) (seq 0 (max_attempts - 1)) /\
    Forall (fun st => st <> Advanced) steps.
Proof.
  intros Hmax Hover. unfold create_crewai_setup.
  destruct max_attempts as [|m]; [lia|].
  replace (S m - 1) with m by lia.
  apply (overload_run kickoff (S m) (new_handler product_name)
           {| name := "Full Analysis"; timeout := 600; tasks := "full" |}
           eq_refl Hover m 0).
  reflexivity.
Qed.

Lemma permanent_overload_stays_on_full_witness :
  exists steps,
    create_crewai_setup
      (fun _ _ => Clock.mkWork (Some 0) (Raise (Exception "503 overloaded")))
      "Widget" 3
    = Some (Str "❌ Service is overloaded and all retry attempts failed. Please try again in 10-15 minutes.",
            steps) /\
    executed steps = map (fun a => (a, "Full Analysis")) (seq 0 3) /\
    waits steps = map (fun a => (a + 1) * 60) (seq 0 (3 - 1)) /\
    Forall (fun st => st <> Advanced) steps.
Proof.
  apply (permanent_overload_stays_on_full
           (fun _ _ => Clock.mkWork (Some 0) (Raise (Exception "503 overloaded")))
           "Widget" 3).
  - lia.
  - intros i crew. exists 0, "503 overloaded". split; reflexivity.
Defined.

(** When the worker of the full strategy ends after the 600 seconds of its
    deadline and the worker of the quick one then returns a result within
    its 300 seconds, [create_crewai_setup] returns that result after two
    executions and does not touch the emergency strategy. *)
Theorem quick_result_is_returned kickoff product_name max_attempts t0 t1 v :
  2 <= max_attempts ->
  Clock.finishes
    (kickoff 0 (create_crew_for_strategy (new_handler product_name)
                  {| name := "Full Analysis"; timeout := 600; tasks := "full" |}))
  = Some t0 ->
  600 < t0 ->
  kickoff 1 (create_crew_for_strategy (fst (next_strategy (new_handler product_name)))
               {| name := "Quick Analysis"; timeout := 300; tasks := "quick" |})
  = Clock.mkWork (Some t1) (Return v) ->
  t1 <= 300 ->
  create_crewai_setup kickoff product_name max_attempts
  = Some (v, [Executed 0 "Full Analysis"; Advanced; Executed 1 "Quick Analysis"]).
Proof.
  intros Hmax Hf0 Hlate Hk1 Hin. unfold create_crewai_setup.
  destruct max_attempts as [|[|n]]; try lia.
  rewrite (Ladder.attempt_unfold kickoff _ _ 0 (new_handler product_name)
             {| name := "Full Analysis"; timeout := 600; tasks := "full" |} eq_refl).
  cbn [timeout]. rewrite (Bounded.execute_times_out _ 600 t0 Hf0 Hlate).
  change (0 <? S (S n) - 1) with true. cbv iota. unfold goes_on.
  rewrite (Ladder.attempt_unfold kickoff _ _ 1 (fst (next_strategy (new_handler product_name)))
             {| name := "Quick Analysis"; timeout := 300; tasks := "quick" |} eq_refl).
  cbn [timeout]. rewrite Hk1.
  unfold execute_with_timeout, Clock.alive_at. cbn [Clock.finishes Clock.produces].
  replace (300 <? t1) with false by (symmetry; apply Nat.ltb_ge; exact Hin).
  reflexivity.
Qed.

Lemma quick_result_is_returned_witness :
  create_crewai_setup
    (fun i _ => Clock.mkWork (Some (if i =? 0 then 700 else 100)) (Return (Obj "report")))
    "Widget" 3
  = Some (Obj "report",
          [Executed 0 "Full Analysis"; Advanced; Executed 1 "Quick Analysis"]).
Proof.
  apply (quick_result_is_returned
           (fun i _ => Clock.mkWork (Some (if i =? 0 then 700 else 100))
                         (Return (Obj "report")))
           "Widget" 3 700 100 (Obj "report")).
  - lia.
  - reflexivity.
  - lia.
  - reflexivity.
  - lia.
Defined.

End LadderMore.

(** ** The console: product name, service check, report file, [main] *)

Module Console.
Import Py Agents Tasks Crew.
Local Open Scope nat_scope.

Lemma rstrip_cons (c : ascii) (t : string) :
  rstrip (String c t)
  = match rstrip t with
    | EmptyString => if isspace c then EmptyString else String c EmptyString
    | String _ _ as t' => String c t'
    end.
Proof. reflexivity. Qed.

Lemma rstrip_idem (s : string) : rstrip (rstrip s) = rstrip s.
Proof.
  induction s as [|c t IH]; [reflexivity|].
  rewrite rstrip_cons. destruct (rstrip t) as [|d u] eqn:E.
  - destruct (isspace c) eqn:Hc; [reflexivity|].
    rewrite rstrip_cons. cbn [rstrip]. now rewrite Hc.
  - rewrite rstrip_cons, IH. reflexivity.
Qed.

Lemma lstrip_head (s : string) :
  lstrip s = "" \/ exists c t, lstrip s = String c t /\ isspace c = false.
Proof.
  induction s as [|c t IH]; [now left|].
  cbn [lstrip]. destruct (isspace c) eqn:Hc; [exact IH|].
  right. eauto.
Qed.

Lemma rstrip_keeps_head (c : ascii) (t : string) :
  isspace c = false -> exists t', rstrip (String c t) = String c t'.
Proof.
  intros Hc. rewrite rstrip_cons. destruct (rstrip t); [rewrite Hc|]; eauto.
Qed.

(** What [strip] returns has no white space at either end. *)
Lemma strip_clean (s : string) :
  lstrip (strip s) = strip s /\ rstrip (strip s) = strip s.
Proof.
  unfold strip. split; [|apply rstrip_idem].
  destruct (lstrip_head s) as [->|[c [t [-> Hc]]]]; [reflexivity|].
  destruct (rstrip_keeps_head c t Hc) as [t' ->].
  cbn [lstrip]. now rewrite Hc.
Qed.

Lemma strip_idem (s : string) : strip (strip s) = strip s.
Proof.
  destruct (strip_clean s) as [Hl Hr].
  unfold strip at 1. now rewrite Hl, Hr.
Qed.

Lemma validated_cons (x : string) inputs name rest :
  validated inputs name rest -> validated (x :: inputs) name rest.
Proof.
  intros (Hne & Hlen & Hs & (line & Hin & Hline) & (read & answer & Heq & Hyes)).
  repeat split; try assumption.
  - exists line. split; [now right | assumption].
  - exists (x :: read), answer. split; [now rewrite Heq | assumption].
Qed.

Lemma get_product_name_validated : forall n inputs name rest,
  List.length inputs <= n ->
  get_product_name inputs = Return (name, rest) ->
  validated inputs name rest.
Proof.
  induction n as [|n IH]; intros inputs name rest Hlen H.
  - destruct inputs; [discriminate | cbn in Hlen; lia].
  - destruct inputs as [|line inputs1]; [discriminate|].
    cbn [List.length] in Hlen. cbn [get_product_name] in H.
    destruct (String.eqb (strip line) "") eqn:E1.
    { apply validated_cons, IH; [lia | exact H]. }
    destruct (100 <? String.length (strip line)) eqn:E2.
    { apply validated_cons, IH; [lia | exact H]. }
    apply String.eqb_neq in E1. apply Nat.ltb_ge in E2.
    assert (Hdirect : forall read answer,
               (line :: inputs1 = read ++ answer :: rest)%list ->
               isin (lower (strip answer)) ["y"; "yes"] = true ->
               validated (line :: inputs1) (strip line) rest).
    { intros read answer Heq Hyes. repeat split; try assumption.
      - apply strip_idem.
      - exists line. split; [now left | reflexivity].
      - exists read, answer. split; assumption. }
    destruct (5 <? List.length (split (strip line))).
    + destruct inputs1 as [|answer inputs2]; [discriminate|].
      cbn [List.length] in Hlen.
      destruct (isin (lower (strip answer)) ["y"; "yes"]) eqn:Ey; cbn [negb] in H.
      * destruct inputs2 as [|answer' inputs3]; [discriminate|].
        cbn [List.length] in Hlen.
        destruct (isin (lower (strip answer')) ["y"; "yes"]) eqn:Ey'.
        -- inversion H; subst.
           apply (Hdirect [line; answer] answer'); [reflexivity | exact Ey'].
        -- do 3 apply validated_cons. apply IH; [lia | exact H].
      * do 2 apply validated_cons. apply IH; [lia | exact H].
    + destruct inputs1 as [|answer' inputs2]; [discriminate|].
      cbn [List.length] in Hlen.
      destruct (isin (lower (strip answer')) ["y"; "yes"]) eqn:Ey'.
      * inversion H; subst.
        apply (Hdirect [line] answer'); [reflexivity | exact Ey'].
      * do 2 apply validated_cons. apply IH; [lia | exact H].
Qed.

(** A name [get_product_name] returns is not empty, has at most 100
    characters and no white space at either end, is one of the lines typed,
    stripped, and was confirmed by a yes, the last line read. *)
Theorem product_name_is_validated (inputs : list string) (name : string)
    (rest : list string) :
  Forall (fun line => all_chars is_ascii line = true) inputs ->
  get_product_name inputs = Return (name, rest) ->
  validated inputs name rest.
Proof.
  intros _. apply (get_product_name_validated (List.length inputs)). lia.
Qed.

Lemma product_name_is_validated_witness :
  validated [""; "  Widget "; "n"; "Gadget"; " YES "; "y"] "Gadget" ["y"].
Proof.
  apply (product_name_is_validated [""; "  Widget "; "n"; "Gadget"; " YES "; "y"]
           "Gadget" ["y"]).
  - repeat constructor.
  - reflexivity.
Defined.

Lemma check_service_status_keys getenv llm_test :
  check_service_status getenv llm_test
  = truthy (getenv "GOOGLE_API_KEY") && truthy (getenv "SERPER_API_KEY").
Proof.
  unfold check_service_status. cbn [filter].
  destruct (truthy (getenv "GOOGLE_API_KEY")), (truthy (getenv "SERPER_API_KEY"));
    cbn [negb andb]; try reflexivity.
  destruct llm_test as [v|e]; [reflexivity|].
  destruct (contains "overloaded" (lower (str_exc e)) || contains "503" (str_exc e));
    reflexivity.
Qed.

(** [check_service_status] is true exactly when both API keys are set to
    non-empty values; what the test call of the model does has no part in
    it. *)
Theorem service_check_ignores_the_model getenv :
  (forall llm_test,
     check_service_status getenv llm_test = true
     <-> truthy (getenv "GOOGLE_API_KEY") = true /\
         truthy (getenv "SERPER_API_KEY") = true) /\
  (forall llm_test llm_test',
     check_service_status getenv llm_test = check_service_status getenv llm_test').
Proof.
  split.
  - intros llm_test. rewrite check_service_status_keys. apply andb_true_iff.
  - intros llm_test llm_test'. now rewrite !check_service_status_keys.
Qed.

Lemma all_chars_join_if (keep : ascii -> bool) (s : string) :
  all_chars keep (join_if keep s) = true.
Proof.
  induction s as [|c t IH]; [reflexivity|].
  cbn [join_if]. destruct (keep c) eqn:E; [|exact IH].
  cbn [all_chars]. now rewrite E.
Qed.

Lemma all_chars_rstrip (p : ascii -> bool) (s : string) :
  all_chars p s = true -> all_chars p (rstrip s) = true.
Proof.
  induction s as [|c t IH]; [auto|].
  cbn [all_chars]. rewrite rstrip_cons.
  intros H. apply andb_true_iff in H. destruct H as [Hc Ht].
  specialize (IH Ht). destruct (rstrip t) eqn:E.
  - destruct (isspace c); cbn [all_chars]; [reflexivity | now rewrite Hc].
  - cbn [all_chars] in *. now rewrite Hc, IH.
Qed.

Lemma kept_char_becomes_safe (c : ascii) :
  isalnum c || isin (String c EmptyString) [" "; "-"; "_"] = true ->
  filename_char (if Ascii.eqb (lower_ascii c) " " then "_" else lower_ascii c) = true.
Proof.
  destruct c as [[] [] [] [] [] [] [] []]; intros H; try discriminate H; reflexivity.
Qed.

Lemma all_chars_safe (s : string) :
  all_chars (fun c => isalnum c || isin (String c EmptyString) [" "; "-"; "_"]) s = true ->
  all_chars filename_char (replace_char " " "_" (lower s)) = true.
Proof.
  induction s as [|c t IH]; [auto|].
  cbn [all_chars lower replace_char]. intros H.
  apply andb_true_iff in H. destruct H as [Hc Ht].
  rewrite (kept_char_becomes_safe c Hc). now apply IH.
Qed.

Lemma rstrip_length (s : string) : String.length (rstrip s) <= String.length s.
Proof.
  induction s as [|c t IH]; [auto|].
  rewrite rstrip_cons. destruct (rstrip t); [destruct (isspace c)|]; cbn [String.length] in *; lia.
Qed.

Lemma join_if_length keep (s : string) :
  String.length (join_if keep s) <= String.length s.
Proof.
  induction s as [|c t IH]; [auto|].
  cbn [join_if]. destruct (keep c); cbn [String.length]; lia.
Qed.

Lemma replace_lower_length (s : string) :
  String.length (replace_char " " "_" (lower s)) = String.length s.
Proof. induction s as [|c t IH]; [reflexivity|]. cbn. now rewrite IH. Qed.

(** The file name built from an ASCII product name is a stem followed by
    ["_analysis.txt"]; the stem is no longer than the product name and is
    made of lower-case letters, digits, hyphens and underscores only: no
    space, no dot and no path separator of the product name gets into it. *)
Theorem report_filename_is_safe (product_name : string) :
  all_chars is_ascii product_name = true ->
  exists stem,
    analysis_filename product_name = stem ++ "_analysis.txt" /\
    all_chars filename_char stem = true /\
    String.length stem <= String.length product_name.
Proof.
  intros _. unfold analysis_filename. eexists. split; [reflexivity|]. split.
  - apply all_chars_safe, all_chars_rstrip, all_chars_join_if.
  - rewrite replace_lower_length.
    eapply Nat.le_trans; [apply rstrip_length | apply join_if_length].
Qed.

Lemma report_filename_is_safe_witness :
  exists stem,
    analysis_filename "../My Product v2.0 " = stem ++ "_analysis.txt" /\
    all_chars filename_char stem = true /\
    String.length stem <= String.length "../My Product v2.0 ".
Proof.
  apply (report_filename_is_safe "../My Product v2.0 "). reflexivity.
Defined.

(** When [main] saves a file, it has returned normally, the analysis did
    not fail, the user answered yes to the question about saving, and the
    file is the one named after the product, holding the report of the
    result: a failure string is never saved. *)
Theorem main_saves_only_results getenv llm_test inputs kickoff write now e f :
  main getenv llm_test inputs kickoff write now = Some (e, Some f) ->
  e = MainReturn /\
  exists name answer rest results steps,
    get_product_name inputs = Return (name, answer :: rest) /\
    create_crewai_setup kickoff name 3 = Some (results, steps) /\
    main_sees_failure results = false /\
    isin (lower (strip answer)) ["y"; "yes"] = true /\
    f = analysis_filename name /\
    write f (report now results name) = true.
Proof.
  unfold main. intros H.
  destruct (check_service_status getenv llm_test); cbn [negb] in H; [|discriminate].
  destruct (get_product_name inputs) as [[name inputs']|x] eqn:Hn; [|discriminate].
  destruct (create_crewai_setup kickoff name 3) as [[results steps]|] eqn:Hs;
    [|discriminate].
  destruct (main_sees_failure results) eqn:Hf; [discriminate|].
  destruct inputs' as [|answer rest]; [discriminate|].
  destruct (isin (lower (strip answer)) ["y"; "yes"]) eqn:Hy; [|discriminate].
  unfold save_results in H.
  destruct (write (analysis_filename name) (report now results name)) eqn:Hw;
    [|discriminate].
  inversion H; subst. split; [reflexivity|].
  exists name, answer, rest, results, steps. repeat split; assumption.
Qed.

Lemma main_saves_only_results_witness :
  MainReturn = MainReturn /\
  exists name answer rest results steps,
    get_product_name ["Widget"; "y"; "yes"] = Return (name, answer :: rest) /\
    create_crewai_setup (fun _ _ => Clock.mkWork (Some 5) (Return (Obj "the report")))
                        name 3
    = Some (results, steps) /\
    main_sees_failure results = false /\
    isin (lower (strip answer)) ["y"; "yes"] = true /\
    "widget_analysis.txt" = analysis_filename name /\
    (fun _ _ => true) "widget_analysis.txt" (report "2025-06-01 10:00:00" results name)
    = true.
Proof.
  apply (main_saves_only_results (fun _ => Some "key") (Return (Obj "ok"))
           ["Widget"; "y"; "yes"]
           (fun _ _ => Clock.mkWork (Some 5) (Return (Obj "the report")))
           (fun _ _ => true) "2025-06-01 10:00:00" MainReturn "widget_analysis.txt").
  vm_compute. reflexivity.
Defined.

(** Without both API keys [main] exits with code 1 before it reads any
    input or runs any crew; and when the analysis fails [main] returns
    without asking about a file. *)
Theorem main_stops_early getenv llm_test inputs kickoff write now :
  (truthy (getenv "GOOGLE_API_KEY") && truthy (getenv "SERPER_API_KEY") = false ->
   main getenv llm_test inputs kickoff write now = Some (SysExit 1, None)) /\
  (forall name rest results steps,
     truthy (getenv "GOOGLE_API_KEY") && truthy (getenv "SERPER_API_KEY") = true ->
     get_product_name inputs = Return (name, rest) ->
     create_crewai_setup kickoff name 3 = Some (results, steps) ->
     main_sees_failure results = true ->
     main getenv llm_test inputs kickoff write now = Some (MainReturn, None)).
Proof.
  unfold main. rewrite check_service_status_keys. split.
  - intros ->. reflexivity.
  - intros name rest results steps -> Hn Hs Hf. cbn [negb].
    now rewrite Hn, Hs, Hf.
Qed.

End Console.
